(** * compress / ulcompress: a bijection between files and natural numbers

    A shallow embedding of [compress.c] and [ulcompress.c].  The two files
    are the same program (ulcompress.c adds comments only), so one embedding
    covers both.

    Conventions of the embedding:
    - an [mpz_t] is a [Z]; every GMP routine the program calls is given by
      the function of [Z] that the GMP manual documents for it;
    - a file is the list of its bytes, the file system a finite map from
      file names to files; a name stands for one file and different names
      for different files (links, and the several ways to spell one path,
      are not part of the embedding); streams are those of a POSIX system,
      where the modes "r" and "w" read and write the bytes as they are;
    - the global buffer [contents] is the list of the bytes of the block
      that [calloc] returned;
    - [fail] ends the run: a run yields a [result], and the file system as
      the run leaves it;
    - what the C library answers (a stream that cannot be opened, a short
      read, a short write, a flush at exit that stops short) is a parameter
      of the run, the record [stdio];
    - the messages of [fail] are the string literals of the C text, with
      their escapes as written there;
    - the debug output on stdout is not part of the embedding. *)

From Stdlib Require Import ZArith Lia.
From Stdlib Require Import Strings.Ascii Strings.String Strings.Byte.
From stdpp Require Import base option list gmap strings.

Local Open Scope Z_scope.

(** ** Bytes *)

Definition byte_to_Z (b : byte) : Z := Z.of_N (Byte.to_N b).

Definition byte_of_Z (z : Z) : byte :=
  match Byte.of_N (Z.to_N (z mod 256)) with
  | Some b => b
  | None => x00
  end.

(** ** The GMP routines the program calls *)

Module Gmp.

(** [mpz_setbit (rop, bit_index)]. *)
Definition mpz_setbit (rop : Z) (bit_index : Z) : Z := Z.setbit rop bit_index.

(** [mpz_fdiv_q (q, n, d)]: the quotient rounded towards minus infinity. *)
Definition mpz_fdiv_q (n d : Z) : Z := n / d.

(** [mpz_sizeinbase (op, 2)]: the number of bits of the absolute value of
    [op], and 1 when [op] is zero.  In base 2 the result is exact. *)
Definition mpz_sizeinbase2 (op : Z) : Z :=
  if op =? 0 then 1 else Z.log2 (Z.abs op) + 1.

(** [mpz_import (rop, count, -1, 1, 0, 0, op)]: [count] words of one byte,
    least significant word first, no nails. *)
Fixpoint mpz_import (op : list byte) : Z :=
  match op with
  | [] => 0
  | b :: op' => byte_to_Z b + 256 * mpz_import op'
  end.

(** The words of [op], least significant first. *)
Fixpoint words (count : nat) (op : Z) : list byte :=
  match count with
  | O => []
  | S count' => byte_of_Z op :: words count' (op / 256)
  end.

(** [mpz_export (rop, &count, -1, 1, 0, 0, op)] writes the words of the
    absolute value of [op], least significant first, and as many as
    [op] needs: none when [op] is zero, and otherwise the most
    significant word written is not zero. *)
Definition mpz_export_count (op : Z) : nat :=
  if op =? 0 then O else Z.to_nat ((mpz_sizeinbase2 op + 7) / 8).

Definition mpz_export (op : Z) : list byte :=
  words (mpz_export_count op) (Z.abs op).

End Gmp.

(** Modelled from the GMP manual: [mpz_set_str (rop, str, 0)].  GMP is a
    library the program links with; its sources are not part of the
    repository.  The function below follows the manual (white space is ignored; with base 0 the leading
    characters choose the base: 0x and 0X hexadecimal, 0b and 0B binary,
    0 octal, decimal otherwise; the result is 0 when the entire string is a
    valid number and -1 otherwise) in the order of the steps of GMP's
    mpz/set_str.c.  [None] stands for the return value -1. *)

Module GmpStr.

(** [isspace] in the C locale. *)
Definition isspace (c : ascii) : bool :=
  match c with
  | " " | "009" | "010" | "011" | "012" | "013" => true
  | _ => false
  end%char.

(** The value of a digit in a base up to 36 (case is ignored); 255 for a
    character that is no digit. *)
Definition digit_value (c : ascii) : Z :=
  let n := Z.of_N (N_of_ascii c) in
  if (48 <=? n) && (n <=? 57) then n - 48
  else if (65 <=? n) && (n <=? 90) then n - 55
  else if (97 <=? n) && (n <=? 122) then n - 87
  else 255.

Fixpoint skip (p : ascii -> bool) (str : string) : string :=
  match str with
  | String c str' => if p c then skip p str' else str
  | EmptyString => str
  end.

(** The digits up to the end of the string; white space between them is
    dropped, any other character that is no digit of [base] is an error. *)
Fixpoint digits (base : Z) (str : string) (acc : Z) : option Z :=
  match str with
  | EmptyString => Some acc
  | String c str' =>
      if isspace c then digits base str' acc
      else
        let dig := digit_value c in
        if base <=? dig then None else digits base str' (acc * base + dig)
  end.

Definition zero_or_space (c : ascii) : bool :=
  Ascii.eqb c "0" || isspace c.

(** Base 0: the base is found by looking at the initial characters. *)
Definition find_base (str : string) : Z * string :=
  match str with
  | String "0" str' =>
      match str' with
      | String "x" str'' | String "X" str'' => (16, str'')
      | String "b" str'' | String "B" str'' => (2, str'')
      | _ => (8, str')
      end
  | _ => (10, str)
  end.

Definition mpz_set_str0 (str : string) : option Z :=
  (* Skip whitespace. *)
  let str := skip isspace str in
  let '(negative, str) :=
    match str with
    | String "-" str' => (true, str')
    | _ => (false, str)
    end in
  (* error if no valid digits *)
  let c := match str with String c _ => c | EmptyString => "000"%char end in
  if 10 <=? digit_value c then None
  else
    let '(base, str) := find_base str in
    (* Skip leading zeros and white space. *)
    let str := skip zero_or_space str in
    match digits base str 0 with
    | Some v => Some (if negative : bool then - v else v)
    | None => None
    end.

End GmpStr.

(** ** Runs of the program *)

(** How a run, or a part of it, ends. *)
Inductive result (A : Type) : Type :=
| Ok (a : A)                             (* control goes on with [a] *)
| Failed (str : string) (args : list Z)  (* [fail (str, ...)]: message, exit (1) *)
| Exited                                 (* [exit (0)] after the help text *)
| Undefined.                             (* behaviour that C leaves undefined *)

Arguments Ok {A} a.
Arguments Failed {A} str args.
Arguments Exited {A}.
Arguments Undefined {A}.

(** The files, and the block that the global pointer [contents] points to. *)
Record world : Type := World {
  files : gmap string (list byte);
  contents : list byte
}.

(** What the C library answers during one run.  Every call below is made
    at most once in a run. *)
Record stdio : Type := Stdio {
  fopen_r : bool;            (* fopen (filename, "r") returns a stream *)
  fseek_end : bool;          (* fseek (file, 0, SEEK_END) returns 0 *)
  ftell_end : bool;          (* ftell (file) returns the position, not -1 *)
  calloc_block : bool;       (* calloc returns a block, not NULL *)
  fread_stop : option nat;   (* fread stops after that many items *)
  fopen_w : bool;            (* fopen (filename, "w") returns a stream *)
  fwrite_stop : option nat;  (* fwrite stops after that many items *)
  flush_stop : option nat    (* the flush of the stream of [put], at the end
                                of the run, stops after that many bytes *)
}.

(** A C library that never lets the program down. *)
Definition stdio_ok : stdio := Stdio true true true true None true None None.

(** The number of items out of [nmemb] that fread or fwrite transfers. *)
Definition items (stop : option nat) (nmemb : nat) : nat :=
  match stop with
  | None => nmemb
  | Some k => Nat.min k nmemb
  end.

Definition run (A : Type) : Type := world -> result A * world.

#[global] Instance run_ret : MRet run := fun A a w => (Ok a, w).

#[global] Instance run_bind : MBind run := fun A B f m w =>
  match m w with
  | (Ok a, w') => f a w'
  | (Failed str args, w') => (Failed str args, w')
  | (Exited, w') => (Exited, w')
  | (Undefined, w') => (Undefined, w')
  end.

Definition fail {A : Type} (str : string) (args : list Z) : run A :=
  fun w => (Failed str args, w).

Definition undefined {A : Type} : run A := fun w => (Undefined, w).

Definition FAILFILE {A : Type} : run A := fail "Unable to access file.\n" [].

(** [long int] of an LP64 platform. *)
Definition LONG_MAX : Z := 2 ^ 63 - 1.

(** This constant is simply a mpz_t with value 255. *)
Definition _255 : Z := 255.

(** *** Blocks of memory *)

(** Bytes stored from the start of a block; nothing is stored past its end. *)
Definition store (block data : list byte) : option (list byte) :=
  if (length data <=? length block)%nat
  then Some (data ++ drop (length data) block)
  else None.

Definition calloc (nmemb : Z) : list byte := replicate (Z.to_nat nmemb) x00.

Definition memset (block : list byte) (c : byte) (n : Z) : option (list byte) :=
  store block (replicate (Z.to_nat n) c).

(** *** The arithmetic of [get] and [put] *)

(** (256^N - 1) / 255, the way both [get] and [put] compute it: set bit
    [8 * filesize] of zero, subtract one, divide by [_255]. *)
Definition start_of_size (filesize : Z) : Z :=
  let n := 0 in
  let n := Gmp.mpz_setbit n (8 * filesize) in
  let n := n - 1 in
  Gmp.mpz_fdiv_q n _255.

(** The number [get] leaves in [n] for a file of [filesize] bytes that
    [fread] has stored in the block [contents]. *)
Definition get_number (filesize : Z) (contents : list byte) : Z :=
  let n := start_of_size filesize in
  let m := Gmp.mpz_import (take (Z.to_nat filesize) contents) in
  n + m.

(** The size of the file that [put] writes for the number [n]. *)
Definition put_filesize (n : Z) : Z :=
  let m := n * _255 in
  let m := m + 1 in
  (Gmp.mpz_sizeinbase2 m - 1) / 8.

(** The bytes [put] hands to [fwrite] for the number [n] when [contents] is
    the block at hand; [None] when [memset] or [mpz_export] would store
    past the end of the block. *)
Definition put_bytes (n : Z) (contents : list byte) : option (list byte) :=
  let filesize := put_filesize n in
  let m := start_of_size filesize in
  let m := n - m in
  contents ← memset contents x00 filesize;
  contents ← store contents (Gmp.mpz_export m);
  Some (take (Z.to_nat filesize) contents).

(** number(FILE) of the comment of ulcompress.c: what [get] computes for a
    file that is read in full into a fresh block of one byte more. *)
Definition number (FILE : list byte) : Z :=
  let filesize := Z.of_nat (length FILE) in
  get_number filesize (default [] (store (calloc (filesize + 1)) FILE)).

(** *** The functions of the program *)

Section Program.

Variable io : stdio.

(** Return the size of the given FILE, in bytes.  [ftell] cannot report
    a position beyond [LONG_MAX]. *)
Definition size (file : list byte) : run Z :=
  if fseek_end io then
    if ftell_end io && (Z.of_nat (length file) <=? LONG_MAX)
    then mret (Z.of_nat (length file))
    else mret (-1)
  else FAILFILE.

Definition fopen_read (filename : string) : run (list byte) := fun w =>
  match files w !! filename with
  | Some file => if fopen_r io then (Ok file, w) else FAILFILE w
  | None => FAILFILE w
  end.

(** [contents = calloc (filesize + 1, 1)] and
    [fread (contents, 1, filesize, file)] after [rewind (file)]: the number
    of items read.  The result of [calloc] is not tested. *)
Definition calloc_fread (filesize : Z) (file : list byte) : run Z := fun w =>
  if calloc_block io then
    let count := items (fread_stop io) (Z.to_nat filesize) in
    match store (calloc (filesize + 1)) (take count file) with
    | Some block => (Ok (Z.of_nat count), World (files w) block)
    | None => (Undefined, w)
    end
  else (Undefined, World (files w) []).

(** Convert the given FILENAME to number N. *)
Definition get (filename : string) : run Z :=
  file ← fopen_read filename;
  filesize ← size file;
  if filesize =? -1 then FAILFILE
  else if LONG_MAX <? 8 * filesize then undefined
  else
    count ← calloc_fread filesize file;
    if negb (count =? filesize) then FAILFILE
    else fun w => (Ok (get_number filesize (contents w)), w).

(** [fopen (filename, "w")] truncates the file, or creates it. *)
Definition fopen_write (filename : string) : run unit := fun w =>
  if fopen_w io
  then (Ok (), World (<[filename := []]> (files w)) (contents w))
  else FAILFILE w.

(** [fwrite (contents, 1, filesize, file)]: the number of items that the
    stream takes.  The stream is buffered, and [put] neither flushes nor
    closes it (there is no [fclose] in [put]): what the stream has taken
    reaches the file when the C library flushes the stream, at the latest
    at the end of the run, be it [exit (1)] in [fail] or the return of
    [main], and a flush that stops short is reported to nobody.  Nothing
    reads the file in between, so the file is given here as it is at the
    end of the run: the bytes taken, as far as the flush gets. *)
Definition fwrite (filename : string) (data : list byte) : run Z := fun w =>
  let count := items (fwrite_stop io) (length data) in
  let written := items (flush_stop io) count in
  (Ok (Z.of_nat count),
   World (<[filename := take written data]> (files w)) (contents w)).

(** Convert the given number N to FILENAME. *)
Definition put (n : Z) (filename : string) : run unit :=
  _ ← fopen_write filename;
  if LONG_MAX <? 8 * put_filesize n then undefined
  else fun w =>
    match put_bytes n (contents w) with
    | None => (Undefined, w)
    | Some data =>
        (count ← fwrite filename data;
         if negb (count =? put_filesize n) then FAILFILE else mret ()) w
    end.

(** One turn of the [getopt] loop of [main]: [c] is what [getopt]
    returned and [optarg] its argument.  The state is [debug] and
    [compress]. *)
Definition option_case (c : ascii) (optarg : string) (st : bool * Z)
  : run (bool * Z) :=
  let '(debug, compress) := st in
  let sign := 1 in
  match c with
  | "v"%char => mret (true, compress)
  | "D"%char | "C"%char =>
      let sign := if Ascii.eqb c "D" then -1 else sign in
      match GmpStr.mpz_set_str0 optarg with
      | None => fail "Argument is not an integer.\n" []
      | Some arg =>
          if 0 <? sign then mret (debug, compress + arg)
          else mret (debug, compress - arg)
      end
  | "c"%char => mret (debug, compress + 1)
  | "d"%char => mret (debug, compress - 1)
  | "h"%char => fun w => (Exited, w)
  | _ => fail "Error parsing arguments.\n" []
  end.

Fixpoint getopt_loop (opts : list (ascii * string)) (st : bool * Z)
  : run (bool * Z) :=
  match opts with
  | [] => mret st
  | (c, optarg) :: opts' =>
      st' ← option_case c optarg st;
      getopt_loop opts' st'
  end.

(** The two tests of [main] between [get] and [put], and the
    subtraction: subtracting is the way we compress. *)
Definition compress_number (n compress : Z) : run Z :=
  if (n =? 0) && (0 <? compress)
  then fail "Cannot compress a zero-length file.\n" []
  else if n <? compress
  then fail "Cannot compress that much.\nHint: compressing %Zd time(s) will make a zero-length file.\n" [n]
  else mret (n - compress).

(** [main]: [opts] lists what the calls of [getopt] return, in order, and
    [args] the arguments from [argv[optind]] on once [getopt] has
    returned -1.  The result is the exit status 0 of [return 0]. *)
Definition main (opts : list (ascii * string)) (args : list string) : run Z :=
  '(debug, compress) ← getopt_loop opts (false, 0);
  filename ← match args with
             | filename :: args' =>
                 match args' with
                 | [] => mret filename
                 | _ => fail "Too many arguments.\n" []
                 end
             | [] => fail "No filename specified.\n" []
             end;
  n ← get filename;
  n ← compress_number n compress;
  _ ← put n filename;
  mret 0.

End Program.

(** The run from a file system, with no block allocated yet. *)
Definition start (fs : gmap string (list byte)) : world := World fs [].

(** ** Derived notions and the words of the specification *)

(** The file of a number: the offset of the number in its interval, in as
    many words as the size of the interval says. *)
Definition file_of_number (n : Z) : list byte :=
  Gmp.words (Z.to_nat (put_filesize n)) (n - start_of_size (put_filesize n)).

(** The spec's words for the start of a category: the closed form
    (256^N - 1) / 255. *)
Definition categoryStart (N : Z) : Z := (256 ^ N - 1) / 255.

(** The spec's words for the offset: the bytes as a number in base 256
    with byte 0 the least significant digit; byte [i] weighs 256^i. *)
Fixpoint base256_from (i : Z) (bytes : list byte) : Z :=
  match bytes with
  | [] => 0
  | b :: bytes' => byte_to_Z b * 256 ^ i + base256_from (i + 1) bytes'
  end.

Definition base256 (bytes : list byte) : Z := base256_from 0 bytes.


(** A string of digits of a base, and its value with the most significant
    digit first. *)
Fixpoint digits_of (base : Z) (str : string) : bool :=
  match str with
  | EmptyString => true
  | String c str' => (GmpStr.digit_value c <? base) && digits_of base str'
  end.

Fixpoint positional (base : Z) (str : string) : Z :=
  match str with
  | EmptyString => 0
  | String c str' =>
      GmpStr.digit_value c * base ^ Z.of_nat (String.length str')
      + positional base str'
  end.

(** A character that no number has: no white space, no sign, no letter and
    no digit; and a string with such a character. *)
Definition stray (c : ascii) : bool :=
  negb (GmpStr.isspace c) && negb (Ascii.eqb c "-")
  && (GmpStr.digit_value c =? 255).

Fixpoint has_stray (str : string) : bool :=
  match str with
  | EmptyString => false
  | String c str' => stray c || has_stray str'
  end.

(** The spec's names for the two failures of the guards of [main]; the
    second reports the number of times one can compress. *)
Definition EmptyFileOverCompress {A : Type} : result A :=
  Failed "Cannot compress a zero-length file.\n" [].

Definition InsufficientValue {A : Type} (max : Z) : result A :=
  Failed "Cannot compress that much.\nHint: compressing %Zd time(s) will make a zero-length file.\n" [max].

(** * Properties *)

(** ** The embedding at work *)

Example export_0 : Gmp.mpz_export 0 = [].
Proof. reflexivity. Qed.

Example export_258 : Gmp.mpz_export 258 = [x02; x01].
Proof. reflexivity. Qed.

Example import_258 : Gmp.mpz_import [x02; x01] = 258.
Proof. reflexivity. Qed.

Example set_str_010 : GmpStr.mpz_set_str0 "010" = Some 8.
Proof. reflexivity. Qed.

Example set_str_0x1F : GmpStr.mpz_set_str0 "0x1F" = Some 31.
Proof. reflexivity. Qed.

Example set_str_minus : GmpStr.mpz_set_str0 " -12" = Some (-12).
Proof. reflexivity. Qed.

Example set_str_09 : GmpStr.mpz_set_str0 "09" = None.
Proof. reflexivity. Qed.

Example set_str_empty : GmpStr.mpz_set_str0 "" = None.
Proof. reflexivity. Qed.

Example number_empty : number [] = 0.
Proof. reflexivity. Qed.

Example number_ff : number [xff] = 256.
Proof. reflexivity. Qed.

Example put_bytes_257 : put_bytes 257 [x07; x07; x00] = Some [x00; x00].
Proof. reflexivity. Qed.

Example put_bytes_overrun : put_bytes 257 [x00] = None.
Proof. reflexivity. Qed.

Example compress_once :
  main stdio_ok [("c"%char, "")] ["f"] (start {["f" := [x00]]})
  = (Ok 0, World {["f" := []]} [x00; x00]).
Proof. vm_compute. reflexivity. Qed.

(** ** The intervals of the sizes *)

Section Intervals.

Lemma setbit_zero (k : Z) : Gmp.mpz_setbit 0 k = 2 ^ k.
Proof. unfold Gmp.mpz_setbit. rewrite Z.setbit_spec'. apply Z.lor_0_l. Qed.

Lemma pow_2_8 (N : Z) : 0 <= N -> 2 ^ (8 * N) = 256 ^ N.
Proof. intros HN. rewrite Z.pow_mul_r by lia. reflexivity. Qed.

Lemma pow_256_pos (N : Z) : 0 <= N -> 0 < 256 ^ N.
Proof. intros HN. apply Z.pow_pos_nonneg; lia. Qed.

(** 256^N - 1 is 255 times the sum of the powers of 256 below 256^N. *)
Lemma pow_256_pred (N : Z) : 0 <= N -> exists s, 256 ^ N - 1 = s * 255 /\ 0 <= s.
Proof.
  revert N. apply natlike_ind.
  - exists 0. split; [reflexivity | lia].
  - intros N HN [s [Hs Hs0]]. exists (256 * s + 1).
    rewrite Z.pow_succ_r by assumption. lia.
Qed.

Lemma start_of_size_eq (N : Z) :
  0 <= N -> start_of_size N = (256 ^ N - 1) / 255.
Proof.
  intros HN. unfold start_of_size, Gmp.mpz_fdiv_q, _255.
  rewrite setbit_zero, pow_2_8 by assumption. reflexivity.
Qed.

Lemma start_of_size_255 (N : Z) :
  0 <= N -> 255 * start_of_size N + 1 = 256 ^ N.
Proof.
  intros HN. rewrite start_of_size_eq by assumption.
  destruct (pow_256_pred N HN) as [s [Hs _]].
  rewrite Hs, Z.div_mul by lia. lia.
Qed.

Lemma start_of_size_succ (N : Z) :
  0 <= N -> start_of_size (N + 1) = start_of_size N + 256 ^ N.
Proof.
  intros HN.
  pose proof (start_of_size_255 N HN) as H0.
  pose proof (start_of_size_255 (N + 1) ltac:(lia)) as H1.
  rewrite Z.pow_add_r, Z.pow_1_r in H1 by lia. lia.
Qed.

Lemma start_of_size_nonneg (N : Z) : 0 <= N -> 0 <= start_of_size N.
Proof.
  intros HN. pose proof (start_of_size_255 N HN).
  pose proof (pow_256_pos N HN). lia.
Qed.

Lemma start_of_size_mono (N N' : Z) :
  0 <= N -> N <= N' -> start_of_size N <= start_of_size N'.
Proof.
  intros HN Hle.
  pose proof (start_of_size_255 N HN).
  pose proof (start_of_size_255 N' ltac:(lia)).
  pose proof (Z.pow_le_mono_r 256 N N' ltac:(lia) Hle). lia.
Qed.

(** [put] finds the size from the number of bits of 255 * n + 1. *)
Lemma put_filesize_log2 (n : Z) :
  0 <= n -> put_filesize n = Z.log2 (255 * n + 1) / 8.
Proof.
  intros Hn. unfold put_filesize, Gmp.mpz_sizeinbase2, _255.
  destruct (Z.eqb_spec (n * 255 + 1) 0) as [E | _]; [lia |].
  rewrite Z.abs_eq by lia.
  replace (n * 255 + 1) with (255 * n + 1) by lia.
  f_equal. lia.
Qed.

Lemma put_filesize_nonneg (n : Z) : 0 <= n -> 0 <= put_filesize n.
Proof.
  intros Hn. rewrite put_filesize_log2 by assumption.
  apply Z.div_pos; [apply Z.log2_nonneg | lia].
Qed.

(** The size [put] finds is the one whose interval holds the number. *)
Lemma put_filesize_interval (n N : Z) :
  0 <= n -> 0 <= N ->
  put_filesize n = N <-> start_of_size N <= n < start_of_size (N + 1).
Proof.
  intros Hn HN. rewrite put_filesize_log2 by assumption.
  pose proof (start_of_size_255 N HN) as H0.
  pose proof (start_of_size_255 (N + 1) ltac:(lia)) as H1.
  rewrite <- pow_2_8 in H0, H1 by lia.
  assert (Hpos : 0 < 255 * n + 1) by lia.
  pose proof (Z.log2_le_pow2 (255 * n + 1) (8 * N) Hpos) as Hle.
  pose proof (Z.log2_lt_pow2 (255 * n + 1) (8 * (N + 1)) Hpos) as Hlt.
  pose proof (Z.log2_nonneg (255 * n + 1)) as Hl.
  split.
  - intros <-.
    pose proof (Z.mul_div_le (Z.log2 (255 * n + 1)) 8 ltac:(lia)).
    pose proof (Z.mul_succ_div_gt (Z.log2 (255 * n + 1)) 8 ltac:(lia)).
    split; [ apply Hle in H; lia | ].
    assert (255 * n + 1 < 2 ^ (8 * (Z.log2 (255 * n + 1) / 8 + 1)))
      by (apply Z.log2_lt_pow2; lia).
    lia.
  - intros [Hlo Hhi].
    assert (8 * N <= Z.log2 (255 * n + 1)) by (apply Hle; lia).
    assert (Z.log2 (255 * n + 1) < 8 * (N + 1)) by (apply Hlt; lia).
    symmetry. apply (Z.div_unique _ 8 N (Z.log2 (255 * n + 1) - 8 * N)); lia.
Qed.

Lemma put_filesize_bounds (n : Z) :
  0 <= n ->
  start_of_size (put_filesize n) <= n < start_of_size (put_filesize n + 1).
Proof.
  intros Hn. apply put_filesize_interval;
    [assumption | apply put_filesize_nonneg; assumption | reflexivity].
Qed.

End Intervals.

(** ** Bytes and words *)

Section Words.

Lemma byte_to_Z_range (b : byte) : 0 <= byte_to_Z b < 256.
Proof.
  unfold byte_to_Z. pose proof (Byte.to_N_bounded b). lia.
Qed.

Lemma byte_of_to_Z (b : byte) : byte_of_Z (byte_to_Z b) = b.
Proof.
  unfold byte_of_Z. pose proof (byte_to_Z_range b) as Hb.
  rewrite Z.mod_small by assumption.
  unfold byte_to_Z. rewrite N2Z.id, Byte.of_to_N. reflexivity.
Qed.

Lemma byte_to_of_Z (z : Z) : byte_to_Z (byte_of_Z z) = z mod 256.
Proof.
  unfold byte_of_Z, byte_to_Z.
  pose proof (Z.mod_pos_bound z 256 ltac:(lia)) as Hm.
  destruct (Byte.of_N (Z.to_N (z mod 256))) as [b |] eqn:E.
  - apply Byte.to_of_N in E. rewrite E. lia.
  - apply Byte.of_N_None_iff in E. lia.
Qed.

Lemma byte_of_Z_mod (z : Z) : byte_of_Z (z mod 256) = byte_of_Z z.
Proof. unfold byte_of_Z. rewrite Z.mod_mod by lia. reflexivity. Qed.

Lemma byte_of_Z_0 : byte_of_Z 0 = x00.
Proof. reflexivity. Qed.

Lemma mpz_import_range (l : list byte) :
  0 <= Gmp.mpz_import l < 256 ^ Z.of_nat (length l).
Proof.
  induction l as [| b l IH]; cbn [Gmp.mpz_import length].
  - simpl. lia.
  - pose proof (byte_to_Z_range b). rewrite Nat2Z.inj_succ.
    rewrite Z.pow_succ_r by lia. lia.
Qed.

Lemma length_words (k : nat) (z : Z) : length (Gmp.words k z) = k.
Proof. revert z. induction k as [| k IH]; intros z; cbn; [| rewrite IH]; reflexivity. Qed.

(** The words of the number of a list of bytes are these bytes. *)
Lemma words_import (l : list byte) :
  Gmp.words (length l) (Gmp.mpz_import l) = l.
Proof.
  induction l as [| b l IH]; cbn [Gmp.mpz_import length Gmp.words];
    [reflexivity |].
  pose proof (byte_to_Z_range b) as Hb.
  replace (byte_to_Z b + 256 * Gmp.mpz_import l)
    with (byte_to_Z b + Gmp.mpz_import l * 256) by lia.
  f_equal.
  - rewrite <- byte_of_Z_mod, Z.mod_add by lia.
    rewrite Z.mod_small by assumption. apply byte_of_to_Z.
  - rewrite Z.div_add by lia.
    rewrite Z.div_small by assumption. exact IH.
Qed.

(** [k] words hold a number below 256^k. *)
Lemma import_words (k : nat) (z : Z) :
  0 <= z < 256 ^ Z.of_nat k -> Gmp.mpz_import (Gmp.words k z) = z.
Proof.
  revert z. induction k as [| k IH]; intros z Hz; cbn [Gmp.words Gmp.mpz_import].
  - simpl in Hz. lia.
  - rewrite Nat2Z.inj_succ, Z.pow_succ_r in Hz by lia.
    rewrite byte_to_of_Z, IH.
    + pose proof (Z.div_mod z 256 ltac:(lia)). lia.
    + split; [apply Z.div_pos; lia |].
      apply Z.div_lt_upper_bound; lia.
Qed.

Lemma words_zero (k : nat) : Gmp.words k 0 = replicate k x00.
Proof.
  induction k as [| k IH]; cbn [Gmp.words replicate]; [reflexivity |].
  rewrite Z.div_0_l by lia. rewrite IH. reflexivity.
Qed.

(** More words than a number needs are zero. *)
Lemma words_pad (k j : nat) (z : Z) :
  0 <= z < 256 ^ Z.of_nat k ->
  Gmp.words (k + j) z = Gmp.words k z ++ replicate j x00.
Proof.
  revert z. induction k as [| k IH]; intros z Hz.
  - simpl in Hz. assert (z = 0) as -> by lia. apply words_zero.
  - rewrite Nat2Z.inj_succ, Z.pow_succ_r in Hz by lia.
    cbn [Nat.add Gmp.words app]. f_equal. apply IH.
    split; [apply Z.div_pos; lia |].
    apply Z.div_lt_upper_bound; lia.
Qed.

(** [mpz_export] writes no more words than the number needs. *)
Lemma mpz_export_count_le (op : Z) (N : nat) :
  0 <= op < 256 ^ Z.of_nat N -> (Gmp.mpz_export_count op <= N)%nat.
Proof.
  intros Hop. unfold Gmp.mpz_export_count, Gmp.mpz_sizeinbase2.
  destruct (Z.eqb_spec op 0) as [E | NE]; [lia |].
  rewrite Z.abs_eq by lia.
  rewrite <- pow_2_8 in Hop by lia.
  assert (Z.log2 op < 8 * Z.of_nat N) by (apply Z.log2_lt_pow2; lia).
  pose proof (Z.log2_nonneg op).
  assert ((Z.log2 op + 1 + 7) / 8 <= Z.of_nat N).
  { apply Z.lt_succ_r. apply Z.div_lt_upper_bound; lia. }
  lia.
Qed.

Lemma mpz_export_count_enough (op : Z) :
  0 <= op -> op < 256 ^ Z.of_nat (Gmp.mpz_export_count op).
Proof.
  intros Hop. unfold Gmp.mpz_export_count, Gmp.mpz_sizeinbase2.
  destruct (Z.eqb_spec op 0) as [E | NE]; [subst; simpl; lia |].
  rewrite Z.abs_eq by lia.
  pose proof (Z.log2_nonneg op).
  rewrite Z2Nat.id by (apply Z.div_pos; lia).
  rewrite <- pow_2_8 by (apply Z.div_pos; lia).
  apply Z.log2_lt_pow2; [lia |].
  pose proof (Z.mul_succ_div_gt (Z.log2 op + 1 + 7) 8 ltac:(lia)).
  pose proof (Z.div_mod (Z.log2 op + 1 + 7) 8 ltac:(lia)).
  pose proof (Z.mod_pos_bound (Z.log2 op + 1 + 7) 8 ltac:(lia)).
  lia.
Qed.

End Words.

(** ** From files to numbers and back *)

Section Codec.

Lemma store_fits (block data : list byte) :
  (length data <= length block)%nat ->
  store block data = Some (data ++ drop (length data) block).
Proof.
  intros H. unfold store.
  destruct (Nat.leb_spec (length data) (length block)); [reflexivity | lia].
Qed.

Lemma store_overrun (block data : list byte) :
  (length block < length data)%nat -> store block data = None.
Proof.
  intros H. unfold store.
  destruct (Nat.leb_spec (length data) (length block)); [lia | reflexivity].
Qed.

(** The block of [get] after a full read: the file and one zero byte. *)
Lemma get_block (FILE : list byte) :
  store (calloc (Z.of_nat (length FILE) + 1)) FILE = Some (FILE ++ [x00]).
Proof.
  unfold calloc.
  replace (Z.to_nat (Z.of_nat (length FILE) + 1)) with (length FILE + 1)%nat by lia.
  rewrite store_fits by (rewrite length_replicate; lia).
  rewrite replicate_add, drop_app_length'
    by (rewrite length_replicate; reflexivity).
  reflexivity.
Qed.

Lemma number_eq (FILE : list byte) :
  number FILE = start_of_size (Z.of_nat (length FILE)) + Gmp.mpz_import FILE.
Proof.
  unfold number, get_number. cbv zeta. rewrite get_block. cbn [default from_option id].
  rewrite Nat2Z.id, take_app_length. reflexivity.
Qed.

Lemma put_filesize_number (FILE : list byte) :
  put_filesize (number FILE) = Z.of_nat (length FILE).
Proof.
  rewrite number_eq.
  pose proof (mpz_import_range FILE) as Hm.
  pose proof (start_of_size_nonneg (Z.of_nat (length FILE)) ltac:(lia)).
  apply put_filesize_interval; [lia | lia |].
  rewrite start_of_size_succ by lia. lia.
Qed.

Lemma number_nonneg (FILE : list byte) : 0 <= number FILE.
Proof.
  rewrite number_eq.
  pose proof (mpz_import_range FILE).
  pose proof (start_of_size_nonneg (Z.of_nat (length FILE)) ltac:(lia)). lia.
Qed.

Lemma length_file_of_number (n : Z) :
  0 <= n -> Z.of_nat (length (file_of_number n)) = put_filesize n.
Proof.
  intros Hn. unfold file_of_number. rewrite length_words.
  pose proof (put_filesize_nonneg n Hn). lia.
Qed.

(** The offset of a number in its interval fits the size of the interval. *)
Lemma offset_range (n : Z) :
  0 <= n ->
  0 <= n - start_of_size (put_filesize n) < 256 ^ put_filesize n.
Proof.
  intros Hn. pose proof (put_filesize_bounds n Hn) as Hb.
  rewrite start_of_size_succ in Hb by (apply put_filesize_nonneg; assumption).
  lia.
Qed.

(** With a block that is large enough [put] hands the file of the number
    to [fwrite], whatever the block held before. *)
Lemma put_bytes_fits (n : Z) (contents : list byte) :
  0 <= n -> put_filesize n <= Z.of_nat (length contents) ->
  put_bytes n contents = Some (file_of_number n).
Proof.
  intros Hn Hlen. unfold put_bytes, memset, file_of_number.
  pose proof (put_filesize_nonneg n Hn) as HF.
  pose proof (offset_range n Hn) as Hoff.
  set (F := Z.to_nat (put_filesize n)) in *.
  set (m := n - start_of_size (put_filesize n)) in *.
  assert (HFlen : (F <= length contents)%nat) by lia.
  rewrite store_fits by (rewrite length_replicate; assumption).
  rewrite length_replicate. cbn [mbind option_bind].
  assert (Hm : 0 <= m < 256 ^ Z.of_nat F) by (unfold F; rewrite Z2Nat.id; lia).
  pose proof (mpz_export_count_le m F Hm) as Hcount.
  unfold Gmp.mpz_export. rewrite Z.abs_eq by lia.
  set (count := Gmp.mpz_export_count m) in *.
  rewrite store_fits
    by (rewrite length_words, length_app, length_replicate, length_drop; lia).
  cbn [mbind option_bind]. f_equal.
  rewrite length_words.
  rewrite drop_app_le by (rewrite length_replicate; lia).
  rewrite drop_replicate.
  rewrite app_assoc, take_app_length'
    by (rewrite length_app, length_words, length_replicate; lia).
  rewrite <- words_pad
    by (split; [lia | apply mpz_export_count_enough; lia]).
  f_equal. lia.
Qed.

(** With a block that is too small [memset] stores past its end. *)
Lemma put_bytes_overrun_lt (n : Z) (contents : list byte) :
  Z.of_nat (length contents) < put_filesize n -> put_bytes n contents = None.
Proof.
  intros Hlen. unfold put_bytes, memset.
  rewrite store_overrun by (rewrite length_replicate; lia). reflexivity.
Qed.

Lemma put_bytes_Some (n : Z) (contents data : list byte) :
  0 <= n -> put_bytes n contents = Some data ->
  data = file_of_number n /\ put_filesize n <= Z.of_nat (length contents).
Proof.
  intros Hn H.
  destruct (Z.le_gt_cases (put_filesize n) (Z.of_nat (length contents))) as [Hle | Hgt].
  - rewrite put_bytes_fits in H by assumption. split; [congruence | assumption].
  - rewrite put_bytes_overrun_lt in H by lia. discriminate.
Qed.

Lemma file_of_number_number (FILE : list byte) :
  file_of_number (number FILE) = FILE.
Proof.
  unfold file_of_number. rewrite put_filesize_number, Nat2Z.id.
  rewrite number_eq.
  replace (start_of_size (Z.of_nat (length FILE)) + Gmp.mpz_import FILE
           - start_of_size (Z.of_nat (length FILE)))
    with (Gmp.mpz_import FILE) by lia.
  apply words_import.
Qed.

Lemma number_file_of_number (n : Z) : 0 <= n -> number (file_of_number n) = n.
Proof.
  intros Hn. rewrite number_eq, length_file_of_number by assumption.
  unfold file_of_number. rewrite import_words.
  - lia.
  - rewrite Z2Nat.id by (apply put_filesize_nonneg; assumption).
    apply offset_range; assumption.
Qed.

Lemma put_filesize_mono (n n' : Z) :
  0 <= n -> n <= n' -> put_filesize n <= put_filesize n'.
Proof.
  intros Hn Hle.
  pose proof (put_filesize_bounds n Hn) as Hb.
  pose proof (put_filesize_bounds n' ltac:(lia)) as Hb'.
  pose proof (put_filesize_nonneg n Hn).
  pose proof (put_filesize_nonneg n' ltac:(lia)).
  destruct (Z.le_gt_cases (put_filesize n) (put_filesize n')) as [? | Hgt];
    [assumption |].
  pose proof (start_of_size_mono (put_filesize n' + 1) (put_filesize n)
                ltac:(lia) ltac:(lia)).
  lia.
Qed.

Lemma base256_from_import (i : Z) (bytes : list byte) :
  0 <= i -> base256_from i bytes = 256 ^ i * Gmp.mpz_import bytes.
Proof.
  revert i. induction bytes as [| b bytes IH]; intros i Hi;
    cbn [base256_from Gmp.mpz_import]; [lia |].
  rewrite IH, Z.pow_add_r by lia. lia.
Qed.

Lemma base256_import (bytes : list byte) : base256 bytes = Gmp.mpz_import bytes.
Proof. unfold base256. rewrite base256_from_import by lia. simpl. lia. Qed.

End Codec.

(** ** The start of a size and the size of a number *)

(** Claim C5.  The start of a size, computed by setting bit 8N of zero,
    subtracting one and dividing by 255, is the closed form
    (256^N - 1) / 255; it is 0 for N = 0, and from N to N + 1 it grows by
    256^N, so the starts are strictly increasing. *)
Theorem start_of_size_steps (N : Z) :
  0 <= N ->
  start_of_size 0 = 0 /\
  start_of_size N = categoryStart N /\
  start_of_size (N + 1) = start_of_size N + 256 ^ N /\
  start_of_size N < start_of_size (N + 1).
Proof.
  intros HN. split; [reflexivity |]. split; [| split].
  - apply start_of_size_eq; assumption.
  - apply start_of_size_succ; assumption.
  - rewrite start_of_size_succ by assumption.
    pose proof (pow_256_pos N HN). lia.
Qed.

Lemma start_of_size_steps_witness :
  0 <= 2 /\
  start_of_size 0 = 0 /\
  start_of_size 2 = categoryStart 2 /\
  start_of_size (2 + 1) = start_of_size 2 + 256 ^ 2 /\
  start_of_size 2 < start_of_size (2 + 1).
Proof. split; [lia | apply (start_of_size_steps 2); lia]. Defined.

(** Claim C4.  The size that [put] computes from the number of bits of
    255 V + 1 is exact at the boundaries: the start of size N has size N,
    the number before it has size N - 1, and V has size N exactly when
    V lies from the start of size N up to, and not including, the start of
    size N + 1. *)
Theorem put_filesize_exact (N V : Z) :
  0 <= N -> 0 <= V ->
  put_filesize (start_of_size N) = N /\
  (1 <= N -> put_filesize (start_of_size N - 1) = N - 1) /\
  (put_filesize V = N <-> start_of_size N <= V < start_of_size (N + 1)).
Proof.
  intros HN HV.
  pose proof (start_of_size_nonneg N HN) as H0.
  pose proof (pow_256_pos N HN) as Hp.
  split; [| split].
  - apply put_filesize_interval; [lia | lia |].
    rewrite start_of_size_succ by assumption. lia.
  - intros H1.
    pose proof (start_of_size_succ (N - 1) ltac:(lia)) as Hs.
    replace (N - 1 + 1) with N in Hs by lia.
    pose proof (start_of_size_nonneg (N - 1) ltac:(lia)).
    pose proof (pow_256_pos (N - 1) ltac:(lia)).
    apply put_filesize_interval; [lia | lia |].
    replace (N - 1 + 1) with N by lia. lia.
  - apply put_filesize_interval; assumption.
Qed.

Lemma put_filesize_exact_witness :
  put_filesize (start_of_size 2) = 2 /\
  put_filesize (start_of_size 2 - 1) = 2 - 1 /\
  (put_filesize 300 = 2 <-> start_of_size 2 <= 300 < start_of_size (2 + 1)).
Proof.
  destruct (put_filesize_exact 2 300 ltac:(lia) ltac:(lia)) as [H1 [H2 H3]].
  split; [exact H1 | split; [apply H2; lia | exact H3]].
Defined.

(** ** Files and numbers *)

(** Claim C6.  The number of a file of N bytes is the start of size N plus
    the bytes read as a number in base 256, byte 0 the least significant
    digit.  The empty file has number 0, the byte 0x00 number 1, the byte
    0xFF number 256, and the two bytes 0x00 0x00 number 257. *)
Theorem number_start_plus_base256 (bytes : list byte) :
  number bytes = categoryStart (Z.of_nat (length bytes)) + base256 bytes /\
  number [] = 0 /\
  number [x00] = 1 /\
  number [xff] = 256 /\
  number [x00; x00] = 257.
Proof.
  split; [| repeat split; reflexivity].
  rewrite number_eq, base256_import, start_of_size_eq by lia. reflexivity.
Qed.

(** Claim C1.  For every file B, the bytes that [put] hands to [fwrite]
    for the number that [get] computes for B are the bytes of B: with the
    block that [get] leaves in [contents] (B and one zero byte), and with
    any block that has room for B. *)
Theorem put_of_get (B contents : list byte) :
  put_bytes (number B) (B ++ [x00]) = Some B /\
  ((length B <= length contents)%nat ->
   put_bytes (number B) contents = Some B).
Proof.
  assert (H : forall block : list byte,
             (length B <= length block)%nat ->
             put_bytes (number B) block = Some B).
  { intros block Hlen.
    rewrite put_bytes_fits.
    - rewrite file_of_number_number. reflexivity.
    - apply number_nonneg.
    - rewrite put_filesize_number. lia. }
  split.
  - apply H. rewrite length_app. lia.
  - apply H.
Qed.

Lemma put_of_get_witness :
  put_bytes (number [x61; x00; xff]) ([x61; x00; xff] ++ [x00])
  = Some [x61; x00; xff] /\
  put_bytes (number [x61; x00; xff]) [x07; x07; x07; x07; x07]
  = Some [x61; x00; xff].
Proof.
  destruct (put_of_get [x61; x00; xff] [x07; x07; x07; x07; x07]) as [H1 H2].
  split; [exact H1 | apply H2; simpl; lia].
Defined.

(** Claim C2.  For every number V that is not negative, [put] turns V into
    a file B whose number, as [get] computes it, is V: with a fresh block of
    the size that [get] allocates for a file of that many bytes, and with
    any block that has room for the file. *)
Theorem get_of_put (V : Z) (contents : list byte) :
  0 <= V ->
  exists B : list byte,
    number B = V /\
    put_bytes V (calloc (put_filesize V + 1)) = Some B /\
    (put_filesize V <= Z.of_nat (length contents) ->
     put_bytes V contents = Some B).
Proof.
  intros HV. exists (file_of_number V).
  pose proof (put_filesize_nonneg V HV) as HF.
  split; [apply number_file_of_number; assumption |]. split.
  - apply put_bytes_fits; [assumption |].
    unfold calloc. rewrite length_replicate. lia.
  - apply put_bytes_fits; assumption.
Qed.

Lemma get_of_put_witness :
  exists B : list byte,
    number B = 65793 /\
    put_bytes 65793 (calloc (put_filesize 65793 + 1)) = Some B /\
    put_bytes 65793 [x07; x07; x07] = Some B.
Proof.
  destruct (get_of_put 65793 [x07; x07; x07]) as [B [H1 [H2 H3]]]; [lia |].
  exists B. split; [exact H1 | split; [exact H2 |]].
  apply H3. vm_compute. discriminate.
Defined.

(** Claim C9, as the specification states it, fails: the numbers 2 and 1
    are the files 0x01 and 0x00, both of one byte, so compressing the file
    0x01 once does not make it shorter. *)
Lemma compress_same_size :
  1 <= 2 /\ 0 < 1 <= 2 /\
  put_bytes 2 [x00] = Some [x01] /\
  put_bytes (2 - 1) [x00] = Some [x00] /\
  ~ (length [x00] < length [x01])%nat.
Proof.
  split; [lia |]. split; [lia |].
  split; [reflexivity |]. split; [reflexivity |]. simpl. lia.
Qed.

(** Claim C9, amended.  Compressing never makes the file longer, and it
    makes the file shorter exactly when the new number lies below the
    start of the size of the old file. *)
Theorem compress_size (V k : Z) (c c' B B' : list byte) :
  1 <= V -> 0 < k <= V ->
  put_bytes V c = Some B ->
  put_bytes (V - k) c' = Some B' ->
  (length B' <= length B)%nat /\
  ((length B' < length B)%nat <-> V - k < start_of_size (Z.of_nat (length B))).
Proof.
  intros HV Hk HB HB'.
  apply put_bytes_Some in HB as [-> _]; [| lia].
  apply put_bytes_Some in HB' as [-> _]; [| lia].
  pose proof (length_file_of_number V ltac:(lia)) as HL.
  pose proof (length_file_of_number (V - k) ltac:(lia)) as HL'.
  pose proof (put_filesize_mono (V - k) V ltac:(lia) ltac:(lia)) as Hmono.
  split; [lia |].
  rewrite HL.
  pose proof (put_filesize_bounds (V - k) ltac:(lia)) as Hb.
  pose proof (put_filesize_nonneg (V - k) ltac:(lia)) as Hnn.
  split.
  - intros Hlt.
    pose proof (start_of_size_mono (put_filesize (V - k) + 1) (put_filesize V)
                  ltac:(lia) ltac:(lia)).
    lia.
  - intros Hlt.
    destruct (Z.eq_dec (put_filesize (V - k)) (put_filesize V)) as [E | NE]; [| lia].
    rewrite E in Hb. lia.
Qed.

Lemma compress_size_witness :
  (length [xff] <= length [x00; x00])%nat /\
  ((length [xff] < length [x00; x00])%nat
   <-> 257 - 1 < start_of_size (Z.of_nat (length [x00; x00]))).
Proof.
  apply (compress_size 257 1 [x00; x00] [x00; x00] [x00; x00] [xff]).
  - lia.
  - lia.
  - reflexivity.
  - reflexivity.
Defined.

(** ** The guards of [main] *)

(** Claim C3.  For a number V that is not negative and a shift k, the
    tests of [main] come in this order: V = 0 with k > 0 fails with the
    message for a zero-length file; otherwise V < k fails with the message
    that reports V as the number of times one can compress; otherwise the
    number becomes V - k.  So every negative k succeeds, on V = 0 too.  The
    files and the block are left as they are. *)
Theorem compress_number_cases (V k : Z) (w : world) :
  0 <= V ->
  (V = 0 /\ 0 < k -> compress_number V k w = (EmptyFileOverCompress, w)) /\
  (~ (V = 0 /\ 0 < k) -> V < k ->
   compress_number V k w = (InsufficientValue V, w)) /\
  (~ (V = 0 /\ 0 < k) -> ~ V < k -> compress_number V k w = (Ok (V - k), w)) /\
  (k < 0 -> compress_number V k w = (Ok (V - k), w)).
Proof.
  intros HV. unfold compress_number, EmptyFileOverCompress, InsufficientValue, fail.
  destruct (Z.eqb_spec V 0) as [E0 | N0];
    destruct (Z.ltb_spec 0 k) as [Hk | Hk];
    destruct (Z.ltb_spec V k) as [Hlt | Hlt];
    cbn [andb]; repeat split; intros; try reflexivity; try lia;
    exfalso; tauto.
Qed.

Lemma compress_number_cases_witness :
  compress_number 0 1 (start ∅) = (EmptyFileOverCompress, start ∅) /\
  compress_number 5 7 (start ∅) = (InsufficientValue 5, start ∅) /\
  compress_number 5 3 (start ∅) = (Ok (5 - 3), start ∅) /\
  compress_number 0 (-4) (start ∅) = (Ok (0 - -4), start ∅).
Proof.
  split; [| split; [| split]].
  - destruct (compress_number_cases 0 1 (start ∅)) as [H _]; [lia |].
    apply H. lia.
  - destruct (compress_number_cases 5 7 (start ∅)) as [_ [H _]]; [lia |].
    apply H; lia.
  - destruct (compress_number_cases 5 3 (start ∅)) as [_ [_ [H _]]]; [lia |].
    apply H; lia.
  - destruct (compress_number_cases 0 (-4) (start ∅)) as [_ [_ [_ H]]]; [lia |].
    apply H. lia.
Defined.

(** Claim C7.  When the tests of [main] let the shift k pass on a number V
    that is not negative, they let the shift -k pass on the result, and
    that gives V back. *)
Theorem compress_number_inverse (V k r : Z) (w w' : world) :
  0 <= V ->
  compress_number V k w = (Ok r, w') ->
  compress_number r (- k) w' = (Ok V, w').
Proof.
  intros HV. unfold compress_number, fail.
  destruct (Z.eqb_spec V 0) as [E0 | N0];
    destruct (Z.ltb_spec 0 k) as [Hk | Hk];
    destruct (Z.ltb_spec V k) as [Hlt | Hlt];
    cbn [andb]; intros H; try discriminate H;
    injection H as <- <-;
    destruct (Z.eqb_spec (V - k) 0);
    destruct (Z.ltb_spec 0 (- k));
    destruct (Z.ltb_spec (V - k) (- k));
    cbn [andb]; try (exfalso; lia);
    unfold mret, run_ret; do 2 f_equal; lia.
Qed.

Lemma compress_number_inverse_witness :
  compress_number (5 - 3) (- 3) (start ∅) = (Ok 5, start ∅).
Proof.
  apply (compress_number_inverse 5 3 (5 - 3) (start ∅) (start ∅)); [lia | reflexivity].
Defined.

(** ** Runs and the files *)

Section Runs.

Variable io : stdio.

Lemma option_case_world (c : ascii) (optarg : string) (st : bool * Z)
    (w w' : world) (r : result (bool * Z)) :
  option_case c optarg st w = (r, w') -> w' = w.
Proof.
  destruct st as [debug compress]. unfold option_case, fail, mret, run_ret.
  destruct (GmpStr.mpz_set_str0 optarg) as [arg |];
    destruct c as [[] [] [] [] [] [] [] []]; cbn;
    intros H; injection H as _ <-; reflexivity.
Qed.

Lemma getopt_loop_world (opts : list (ascii * string)) (st : bool * Z)
    (w w' : world) (r : result (bool * Z)) :
  getopt_loop opts st w = (r, w') -> w' = w.
Proof.
  revert st. induction opts as [| [c optarg] opts IH]; intros st; cbn [getopt_loop].
  - intros H. injection H as _ <-. reflexivity.
  - unfold mbind, run_bind.
    destruct (option_case c optarg st w) as [[st' | str l | |] w1] eqn:E;
      apply option_case_world in E; subst w1.
    + apply IH.
    + intros H; injection H as _ <-; reflexivity.
    + intros H; injection H as _ <-; reflexivity.
    + intros H; injection H as _ <-; reflexivity.
Qed.

Lemma compress_number_world (n compress : Z) (w w' : world) (r : result Z) :
  compress_number n compress w = (r, w') -> w' = w.
Proof.
  unfold compress_number, fail, mret, run_ret.
  destruct ((n =? 0) && (0 <? compress)); [| destruct (n <? compress)];
    intros H; injection H as _ <-; reflexivity.
Qed.

Lemma compress_number_Ok (n compress n' : Z) (w w' : world) :
  compress_number n compress w = (Ok n', w') ->
  n' = n - compress /\ compress <= n.
Proof.
  unfold compress_number, fail, mret, run_ret.
  destruct ((n =? 0) && (0 <? compress)); [discriminate |].
  destruct (Z.ltb_spec n compress) as [Hlt | Hle]; [discriminate |].
  intros H; injection H as <- _. split; [reflexivity | assumption].
Qed.

(** A run that ends before [get] returns: the files are as they were, and
    there is no number. *)
Ltac ends_early :=
  let H := fresh "H" in
  intros H; injection H as <- <-; split; [reflexivity | discriminate].

(** [get] leaves the files as they are; when it returns, its number is the
    number of the file, and the block holds the file and one zero byte. *)
Lemma get_files (filename : string) (w w' : world) (r : result Z) :
  get io filename w = (r, w') ->
  files w' = files w /\
  forall n : Z, r = Ok n ->
    exists B : list byte,
      files w !! filename = Some B /\ n = number B /\ contents w' = B ++ [x00].
Proof.
  unfold get, mbind, run_bind, fopen_read, size, FAILFILE, fail, undefined,
    mret, run_ret, calloc_fread.
  destruct (files w !! filename) as [B |] eqn:EB;
    [| ends_early].
  destruct (fopen_r io);
    [| ends_early].
  destruct (fseek_end io);
    [| ends_early].
  destruct (ftell_end io && (Z.of_nat (length B) <=? LONG_MAX)).
  2:{ cbn. ends_early. }
  destruct (Z.eqb_spec (Z.of_nat (length B)) (-1)) as [E | _]; [lia |].
  destruct (LONG_MAX <? 8 * Z.of_nat (length B));
    [ends_early |].
  destruct (calloc_block io);
    [| ends_early].
  rewrite Nat2Z.id.
  set (count := items (fread_stop io) (length B)).
  assert (Hcount : (count <= length B)%nat).
  { unfold count, items. destruct (fread_stop io); lia. }
  unfold calloc.
  replace (Z.to_nat (Z.of_nat (length B) + 1)) with (length B + 1)%nat by lia.
  rewrite store_fits by (rewrite length_take, length_replicate; lia).
  destruct (Z.eqb_spec (Z.of_nat count) (Z.of_nat (length B))) as [E | NE]; cbn [negb].
  2:{ ends_early. }
  assert (count = length B) as -> by lia.
  rewrite firstn_all.
  intros H; injection H as <- <-. cbn [files contents].
  split; [reflexivity |]. intros n Hn. injection Hn as <-.
  exists B. split; [reflexivity |].
  pose proof (get_block B) as Hblock. unfold calloc in Hblock.
  replace (Z.to_nat (Z.of_nat (length B) + 1)) with (length B + 1)%nat in Hblock by lia.
  rewrite store_fits in Hblock by (rewrite length_replicate; lia).
  injection Hblock as Hblock. rewrite Hblock.
  split; [| reflexivity].
  unfold number. cbv zeta. rewrite get_block. reflexivity.
Qed.


(** [put] in three cases.  The file cannot be opened, and nothing has
    changed.  Or the file is opened, so truncated, and the run leaves the
    behaviour that C defines: [8 * filesize] does not fit a [long], or the
    block is too small for the new file.  Or the file is opened and
    [fwrite] gets the bytes of the number: it takes the first [count], and
    the first [written] of these are in the file when the run ends. *)
Lemma put_files (n : Z) (filename : string) (w w' : world) (r : result unit) :
  0 <= n ->
  put io n filename w = (r, w') ->
  (fopen_w io = false /\ r = Failed "Unable to access file.\n" [] /\ w' = w) \/
  (fopen_w io = true /\ r = Undefined /\
   (LONG_MAX < 8 * put_filesize n \/
    Z.of_nat (length (contents w)) < put_filesize n)) \/
  (fopen_w io = true /\
   let data := file_of_number n in
   let count := items (fwrite_stop io) (length data) in
   let written := items (flush_stop io) count in
   files w' = <[filename := take written data]> (files w) /\
   (count = length data /\ r = Ok () \/
    (count < length data)%nat /\ fwrite_stop io = Some count /\
    r = Failed "Unable to access file.\n" [])).
Proof.
  intros Hn H.
  unfold put, mbind, run_bind, fopen_write, FAILFILE, fail, undefined, fwrite,
    mret, run_ret in H.
  destruct (fopen_w io);
    [| injection H as <- <-; left; repeat split; reflexivity].
  right. cbn [contents files] in H.
  destruct (Z.ltb_spec LONG_MAX (8 * put_filesize n)) as [Hov | _];
    [injection H as <- <-; left; split; [reflexivity |];
     split; [reflexivity | left; assumption] |].
  cbn [contents files] in H.
  destruct (put_bytes n (contents w)) as [data |] eqn:Ed; cbn [contents files] in H.
  2:{ injection H as <- <-. left. split; [reflexivity |].
      split; [reflexivity |]. right.
      destruct (Z.le_gt_cases (put_filesize n) (Z.of_nat (length (contents w))))
        as [Hle | Hgt]; [| lia].
      rewrite put_bytes_fits in Ed by assumption. discriminate Ed. }
  apply put_bytes_Some in Ed as [-> _]; [| assumption].
  right. split; [reflexivity |]. cbv zeta.
  rewrite <- (length_file_of_number n Hn) in H.
  set (data := file_of_number n) in *.
  set (count := items (fwrite_stop io) (length data)) in *.
  assert (Hcount : (count <= length data)%nat /\
                   (count < length data -> fwrite_stop io = Some count)%nat).
  { unfold count, items. destruct (fwrite_stop io) as [k |]; [| lia].
    split; [lia |]. intros Hk. f_equal. lia. }
  destruct Hcount as [Hle Hstop].
  destruct (Z.eqb_spec (Z.of_nat count) (Z.of_nat (length data))) as [E | NE];
    cbn [negb] in H; injection H as <- <-; cbn [files];
    rewrite insert_insert_eq; (split; [reflexivity |]).
  - left. split; [lia | reflexivity].
  - right. split; [lia |]. split; [apply Hstop; lia | reflexivity].
Qed.


End Runs.



(** A block too small for the new file: the empty file leaves a block of
    one byte, and the number 65536 is a file of two bytes. *)
Example decompress_overrun :
  main stdio_ok [("D"%char, "65536")] ["f"] (start {["f" := []]})
  = (Undefined, World {["f" := []]} [x00]).
Proof. vm_compute. reflexivity. Qed.

Example decompress_once :
  main stdio_ok [("d"%char, "")] ["f"] (start {["f" := []]})
  = (Ok 0, World {["f" := [x00]]} [x00]).
Proof. vm_compute. reflexivity. Qed.

(** ** The operand of -C and -D *)

Section Operand.

Import GmpStr.

Lemma digit_not_space (c : ascii) : digit_value c < 255 -> isspace c = false.
Proof.
  destruct c as [[] [] [] [] [] [] [] []]; vm_compute; intros H;
    try reflexivity; discriminate H.
Qed.

Lemma digits_all (base : Z) (str : string) (acc : Z) :
  0 < base <= 36 -> digits_of base str = true ->
  digits base str acc
  = Some (acc * base ^ Z.of_nat (String.length str) + positional base str).
Proof.
  intros Hbase. revert acc.
  induction str as [| c str IH]; intros acc Hd; cbn [digits positional String.length].
  - f_equal. simpl. lia.
  - cbn [digits_of] in Hd. apply andb_prop in Hd as [Hc Hd].
    apply Z.ltb_lt in Hc.
    rewrite digit_not_space by lia.
    destruct (Z.leb_spec base (digit_value c)) as [? | _]; [lia |].
    rewrite IH by assumption. f_equal.
    rewrite Nat2Z.inj_succ, Z.pow_succ_r by lia. lia.
Qed.

(** Leading zeros and white space do not change the number. *)
Lemma digits_skip (base : Z) (str : string) :
  0 < base -> digits base (skip zero_or_space str) 0 = digits base str 0.
Proof.
  intros Hbase. induction str as [| c str IH]; cbn [skip digits]; [reflexivity |].
  unfold zero_or_space at 1.
  destruct (isspace c) eqn:Es.
  - rewrite orb_true_r. exact IH.
  - rewrite orb_false_r.
    destruct (Ascii.eqb_spec c "0") as [-> | NE].
    + rewrite IH.
      change (digit_value "0") with 0.
      destruct (Z.leb_spec base 0) as [? | _]; [lia | reflexivity].
    + cbn [digits]. rewrite Es. reflexivity.
Qed.

Lemma find_base_octal (c : ascii) (str : string) :
  digit_value c < 8 ->
  find_base (String "0" (String c str)) = (8, String c str).
Proof.
  destruct c as [[] [] [] [] [] [] [] []]; vm_compute; intros H;
    try reflexivity; discriminate H.
Qed.

Lemma set_str_octal (ds : string) :
  digits_of 8 ds = true -> mpz_set_str0 (String "0" ds) = Some (positional 8 ds).
Proof.
  intros Hd. unfold mpz_set_str0. cbn [skip].
  change (isspace "0") with false. cbv beta iota.
  change (10 <=? digit_value "0") with false. cbv beta iota.
  assert (Hb : find_base (String "0" ds) = (8, ds)).
  { destruct ds as [| c ds]; [reflexivity |].
    apply find_base_octal. cbn [digits_of] in Hd.
    apply andb_prop in Hd as [Hc _]. apply Z.ltb_lt in Hc. exact Hc. }
  rewrite Hb, digits_skip, digits_all by (assumption || lia).
  f_equal.
Qed.

Lemma set_str_hex (x : ascii) (ds : string) :
  x = "x"%char \/ x = "X"%char ->
  digits_of 16 ds = true ->
  mpz_set_str0 (String "0" (String x ds)) = Some (positional 16 ds).
Proof.
  intros Hx Hd. unfold mpz_set_str0. cbn [skip].
  change (isspace "0") with false. cbv beta iota.
  change (10 <=? digit_value "0") with false. cbv beta iota.
  assert (Hb : find_base (String "0" (String x ds)) = (16, ds))
    by (destruct Hx as [-> | ->]; reflexivity).
  rewrite Hb, digits_skip, digits_all by (assumption || lia).
  f_equal.
Qed.

Lemma skip_stray (p : ascii -> bool) (str : string) :
  (forall c : ascii, p c = true -> stray c = false) ->
  has_stray (skip p str) = has_stray str.
Proof.
  intros Hp. induction str as [| c str IH]; cbn [skip has_stray]; [reflexivity |].
  destruct (p c) eqn:Ec; [| reflexivity].
  rewrite (Hp c Ec), IH. reflexivity.
Qed.

Lemma isspace_not_stray (c : ascii) : isspace c = true -> stray c = false.
Proof. intros H. unfold stray. rewrite H. reflexivity. Qed.

Lemma zero_or_space_not_stray (c : ascii) :
  zero_or_space c = true -> stray c = false.
Proof.
  unfold zero_or_space. intros H. apply orb_prop in H as [H | H].
  - apply Ascii.eqb_eq in H as ->. reflexivity.
  - apply isspace_not_stray. exact H.
Qed.

Lemma digits_stray (base : Z) (str : string) (acc : Z) :
  base <= 255 -> has_stray str = true -> digits base str acc = None.
Proof.
  intros Hbase. revert acc.
  induction str as [| c str IH]; intros acc Hs; cbn [has_stray digits] in *;
    [discriminate |].
  destruct (isspace c) eqn:Es.
  - rewrite (isspace_not_stray c Es) in Hs. apply IH. exact Hs.
  - destruct (Z.leb_spec base (digit_value c)) as [_ | Hlt]; [reflexivity |].
    apply IH. apply orb_prop in Hs as [Hs | Hs]; [| exact Hs].
    unfold stray in Hs. apply andb_prop in Hs as [_ Hs].
    apply Z.eqb_eq in Hs. lia.
Qed.

Lemma find_base_stray (str : string) :
  has_stray str = true ->
  has_stray (snd (find_base str)) = true /\ fst (find_base str) <= 255.
Proof.
  destruct str as [| c str]; [discriminate |].
  destruct c as [[] [] [] [] [] [] [] []];
    try (intros H; split; [exact H | cbn; lia]).
  destruct str as [| c str]; [discriminate |].
  destruct c as [[] [] [] [] [] [] [] []];
    intros H; (split; [exact H | cbn; lia]).
Qed.

(** A string with a stray character is no number. *)
Lemma set_str_stray (str : string) :
  has_stray str = true -> mpz_set_str0 str = None.
Proof.
  intros Hs. unfold mpz_set_str0.
  rewrite <- (skip_stray isspace str isspace_not_stray) in Hs.
  set (str1 := skip isspace str) in *.
  assert (Hsign : exists (negative : bool) (str2 : string),
            match str1 with
            | String "-" str' => (true, str')
            | _ => (false, str1)
            end = (negative, str2) /\ has_stray str2 = true).
  { destruct str1 as [| c str2]; [discriminate |].
    destruct (Ascii.eqb_spec c "-") as [-> | NE].
    - exists true, str2. split; [reflexivity | exact Hs].
    - exists false, (String c str2). split; [| exact Hs].
      destruct c as [[] [] [] [] [] [] [] []]; try reflexivity.
      contradiction NE. reflexivity. }
  destruct Hsign as [negative [str2 [-> Hs2]]].
  destruct (10 <=? digit_value _); [reflexivity |].
  destruct (find_base_stray str2 Hs2) as [Hs3 Hb].
  destruct (find_base str2) as [base str3]. cbn [fst snd] in Hs3, Hb.
  rewrite digits_stray; [reflexivity | exact Hb |].
  rewrite skip_stray by exact zero_or_space_not_stray. exact Hs3.
Qed.

(** Claim C10.  The operand of -C and -D is read by [mpz_set_str] with
    base 0.  After 0x or 0X a string of hexadecimal digits has its
    hexadecimal value, and after a plain 0 a string of octal digits has its
    octal value.  -C adds the value to the shift and -D subtracts it, so
    -C 010 adds eight; when [mpz_set_str] rejects the string the run fails
    with the message that the argument is not an integer; a string with a
    character that is no white space, sign, letter or digit is rejected. *)
Theorem operand_base_0 (ds optarg : string) (debug : bool) (compress : Z)
    (w : world) :
  (ds <> EmptyString -> digits_of 16 ds = true ->
   mpz_set_str0 (String "0" (String "x" ds)) = Some (positional 16 ds) /\
   mpz_set_str0 (String "0" (String "X" ds)) = Some (positional 16 ds)) /\
  (digits_of 8 ds = true ->
   mpz_set_str0 (String "0" ds) = Some (positional 8 ds)) /\
  (forall arg : Z, mpz_set_str0 optarg = Some arg ->
     option_case "C" optarg (debug, compress) w = (Ok (debug, compress + arg), w) /\
     option_case "D" optarg (debug, compress) w = (Ok (debug, compress - arg), w)) /\
  (mpz_set_str0 optarg = None ->
     option_case "C" optarg (debug, compress) w
     = (Failed "Argument is not an integer.\n" [], w) /\
     option_case "D" optarg (debug, compress) w
     = (Failed "Argument is not an integer.\n" [], w)) /\
  (has_stray optarg = true -> mpz_set_str0 optarg = None) /\
  getopt_loop [("C"%char, "010")] (debug, compress) w
  = (Ok (debug, compress + 8), w).
Proof.
  split; [| split; [| split; [| split; [| split]]]].
  - intros _ Hd. split; apply set_str_hex; auto.
  - apply set_str_octal.
  - intros arg Harg. unfold option_case. cbn. rewrite Harg. split; reflexivity.
  - intros Hnone. unfold option_case. cbn. rewrite Hnone. split; reflexivity.
  - apply set_str_stray.
  - reflexivity.
Qed.

Lemma operand_base_0_witness :
  mpz_set_str0 "0x1F" = Some (positional 16 "1F") /\
  mpz_set_str0 "017" = Some (positional 8 "17") /\
  option_case "D" "0X10" (false, 20) (start ∅) = (Ok (false, 20 - 16), start ∅) /\
  option_case "C" "ten" (false, 20) (start ∅)
  = (Failed "Argument is not an integer.\n" [], start ∅) /\
  mpz_set_str0 "1,000" = None.
Proof.
  destruct (operand_base_0 "1F" "0X10" false 20 (start ∅)) as [Hx [_ [HD _]]].
  destruct (operand_base_0 "17" "ten" false 20 (start ∅)) as [_ [Ho [_ [HN _]]]].
  destruct (operand_base_0 "" "1,000" false 20 (start ∅)) as [_ [_ [_ [_ [HS _]]]]].
  split; [apply Hx; [discriminate | reflexivity] |].
  split; [apply Ho; reflexivity |].
  split; [apply (HD 16); reflexivity |].
  split; [apply HN; reflexivity | apply HS; reflexivity].
Defined.

End Operand.

Example positional_1F : positional 16 "1F" = 31.
Proof. reflexivity. Qed.

Example main_rejects_operand :
  main stdio_ok [("C"%char, "12abc")] ["f"] (start {["f" := [x61]]})
  = (Failed "Argument is not an integer.\n" [], start {["f" := [x61]]}).
Proof. vm_compute. reflexivity. Qed.

(** ** Runs that return *)

Section Returns.

(** With a C library that never lets the program down, [get] returns the
    number of the file, unless the file is too large for [8 * filesize]. *)
Lemma get_returns (filename : string) (w : world) (B : list byte) :
  files w !! filename = Some B ->
  8 * Z.of_nat (length B) <= LONG_MAX ->
  get stdio_ok filename w = (Ok (number B), World (files w) (B ++ [x00])).
Proof.
  intros HB Hlong.
  unfold get, mbind, run_bind, fopen_read, size, calloc_fread, mret, run_ret.
  rewrite HB. cbn [stdio_ok fopen_r fseek_end ftell_end calloc_block fread_stop items andb].
  destruct (Z.leb_spec (Z.of_nat (length B)) LONG_MAX) as [_ | ?]; [| lia].
  destruct (Z.eqb_spec (Z.of_nat (length B)) (-1)) as [? | _]; [lia |].
  destruct (Z.ltb_spec LONG_MAX (8 * Z.of_nat (length B))) as [? | _]; [lia |].
  rewrite Nat2Z.id, firstn_all, get_block, Z.eqb_refl. cbn [negb contents].
  unfold number. cbv zeta. rewrite get_block. reflexivity.
Qed.

(** The block of [get] has room for the file that one step of
    decompression makes, and for every file that compression makes. *)
Lemma one_more_byte (B : list byte) (compress : Z) :
  -1 <= compress <= number B ->
  put_filesize (number B - compress) <= Z.of_nat (length B) + 1.
Proof.
  intros Hc.
  pose proof (number_nonneg B) as Hn.
  pose proof (put_filesize_number B) as HF.
  pose proof (put_filesize_bounds (number B) Hn) as Hb. rewrite HF in Hb.
  pose proof (put_filesize_mono (number B - compress) (number B + 1)
                ltac:(lia) ltac:(lia)) as Hmono.
  assert (put_filesize (number B + 1) <= Z.of_nat (length B) + 1); [| lia].
  pose proof (put_filesize_bounds (number B + 1) ltac:(lia)) as Hb1.
  pose proof (put_filesize_nonneg (number B + 1) ltac:(lia)) as Hnn.
  destruct (Z.le_gt_cases (put_filesize (number B + 1)) (Z.of_nat (length B) + 1))
    as [? | Hgt]; [assumption |].
  pose proof (start_of_size_mono (Z.of_nat (length B) + 1 + 1)
                (put_filesize (number B + 1)) ltac:(lia) ltac:(lia)).
  pose proof (start_of_size_succ (Z.of_nat (length B) + 1) ltac:(lia)).
  pose proof (pow_256_pos (Z.of_nat (length B) + 1) ltac:(lia)).
  lia.
Qed.

(** [main] returns 0, and the file holds the bytes of the new number, when
    the C library does not let the program down, the sizes fit a [long],
    the tests of [main] let the shift pass, and the block of [get] has room
    for the new file. *)
Lemma main_returns (opts : list (ascii * string)) (filename : string)
    (fs : gmap string (list byte)) (B : list byte) (debug : bool)
    (compress : Z) :
  fs !! filename = Some B ->
  8 * (Z.of_nat (length B) + 1) <= LONG_MAX ->
  getopt_loop opts (false, 0) (start fs) = (Ok (debug, compress), start fs) ->
  compress <= number B ->
  put_filesize (number B - compress) <= Z.of_nat (length B) + 1 ->
  exists block : list byte,
    main stdio_ok opts [filename] (start fs)
    = (Ok 0,
       World (<[filename := file_of_number (number B - compress)]> fs) block).
Proof.
  intros HB Hlong Hopts Hle Hroom.
  pose proof (number_nonneg B) as Hn.
  unfold main, mbind, run_bind. rewrite Hopts.
  unfold mret at 1, run_ret at 1.
  rewrite (get_returns filename (start fs) B) by (cbn; assumption || lia).
  unfold compress_number.
  destruct (Z.eqb_spec (number B) 0) as [E0 | _];
    destruct (Z.ltb_spec 0 compress) as [? | ?]; cbn [andb]; try lia;
    (destruct (Z.ltb_spec (number B) compress) as [? | _]; [lia |]);
    unfold mret at 1, run_ret at 1;
    unfold put, mbind, run_bind, fopen_write, fwrite, mret, run_ret;
    cbn [stdio_ok fopen_w fwrite_stop flush_stop items contents files start];
    (destruct (Z.ltb_spec LONG_MAX (8 * put_filesize (number B - compress)))
      as [? | _]; [lia |]);
    cbn [contents files];
    rewrite put_bytes_fits by (try (rewrite length_app; change (length [x00]) with 1%nat); lia);
    rewrite length_file_of_number, Z.eqb_refl by lia; cbn [negb];
    rewrite firstn_all, insert_insert_eq; eexists; reflexivity.
Qed.

(** Compressing any number of times that the tests allow, and
    decompressing once, always have room. *)
Lemma main_returns_step (opts : list (ascii * string)) (filename : string)
    (fs : gmap string (list byte)) (B : list byte) (debug : bool)
    (compress : Z) :
  fs !! filename = Some B ->
  8 * (Z.of_nat (length B) + 1) <= LONG_MAX ->
  getopt_loop opts (false, 0) (start fs) = (Ok (debug, compress), start fs) ->
  -1 <= compress <= number B ->
  exists block : list byte,
    main stdio_ok opts [filename] (start fs)
    = (Ok 0,
       World (<[filename := file_of_number (number B - compress)]> fs) block).
Proof.
  intros HB Hlong Hopts Hc.
  apply (main_returns opts filename fs B debug compress); try assumption.
  - lia.
  - apply one_more_byte. assumption.
Qed.

End Returns.

(** * Further properties of the code *)

(** ** The order of the numbers of files *)

Section Order.

Lemma mpz_import_zeros (N : nat) : Gmp.mpz_import (replicate N x00) = 0.
Proof. induction N as [| N IH]; cbn [replicate Gmp.mpz_import]; [| rewrite IH]; reflexivity. Qed.

Lemma mpz_import_ones (N : nat) :
  Gmp.mpz_import (replicate N xff) = 256 ^ Z.of_nat N - 1.
Proof.
  induction N as [| N IH]; cbn [replicate Gmp.mpz_import]; [reflexivity |].
  rewrite IH, Nat2Z.inj_succ, Z.pow_succ_r by lia.
  change (byte_to_Z xff) with 255. lia.
Qed.

Lemma number_interval (B : list byte) :
  start_of_size (Z.of_nat (length B)) <= number B
  < start_of_size (Z.of_nat (length B) + 1).
Proof.
  rewrite number_eq, start_of_size_succ by lia.
  pose proof (mpz_import_range B). lia.
Qed.

Lemma byte_to_Z_inj (b b' : byte) : byte_to_Z b = byte_to_Z b' -> b = b'.
Proof.
  intros H. rewrite <- (byte_of_to_Z b), <- (byte_of_to_Z b'), H. reflexivity.
Qed.

End Order.

(** [get] gives different files different numbers. *)
Theorem number_injective (B B' : list byte) : number B = number B' -> B = B'.
Proof.
  intros H. rewrite <- (file_of_number_number B), <- (file_of_number_number B'), H.
  reflexivity.
Qed.

Lemma number_injective_witness : [x61; x62] = [x61; x62].
Proof. apply (number_injective [x61; x62] [x61; x62]). reflexivity. Defined.

(** The numbers of [get] order the files by size first, and files of one
    size by their bytes read as a number, byte 0 the least significant. *)
Theorem number_order (B B' : list byte) :
  number B < number B' <->
  (length B < length B')%nat \/
  (length B = length B' /\ Gmp.mpz_import B < Gmp.mpz_import B').
Proof.
  pose proof (number_interval B) as HB.
  pose proof (number_interval B') as HB'.
  destruct (Nat.lt_trichotomy (length B) (length B')) as [Hlt | [Heq | Hgt]].
  - pose proof (start_of_size_mono (Z.of_nat (length B) + 1)
                  (Z.of_nat (length B')) ltac:(lia) ltac:(lia)) as Hm.
    split; [intros _; left; assumption | intros _; lia].
  - rewrite !number_eq, Heq. split.
    + intros H. right. split; [reflexivity | lia].
    + intros [H | [_ H]]; lia.
  - pose proof (start_of_size_mono (Z.of_nat (length B') + 1)
                  (Z.of_nat (length B)) ltac:(lia) ltac:(lia)) as Hm.
    split; [intros H; lia | intros [H | [H _]]; lia].
Qed.

(** The files of N bytes take the numbers from the start of size N up to,
    and not including, the start of size N + 1: each of these numbers is
    the number of one file of N bytes and of no other file. *)
Theorem number_onto_interval (N : nat) (n : Z) :
  start_of_size (Z.of_nat N) <= n < start_of_size (Z.of_nat N + 1) ->
  exists B : list byte,
    length B = N /\ number B = n /\
    forall B' : list byte, number B' = n -> B' = B.
Proof.
  intros Hn.
  pose proof (start_of_size_nonneg (Z.of_nat N) ltac:(lia)) as H0.
  assert (HF : put_filesize n = Z.of_nat N)
    by (apply put_filesize_interval; lia).
  exists (file_of_number n). split; [| split].
  - pose proof (length_file_of_number n ltac:(lia)). lia.
  - apply number_file_of_number. lia.
  - intros B' <-. symmetry. apply file_of_number_number.
Qed.

Lemma number_onto_interval_witness :
  exists B : list byte,
    length B = 2%nat /\ number B = 300 /\
    forall B' : list byte, number B' = 300 -> B' = B.
Proof.
  apply (number_onto_interval 2 300). vm_compute.
  split; [discriminate | reflexivity].
Defined.

(** The first file of each size is all bytes 0x00 and the last is all
    bytes 0xFF; compressing the first file of N + 1 bytes once gives the
    last file of N bytes. *)
Theorem first_and_last_of_size (N : nat) :
  number (replicate N x00) = start_of_size (Z.of_nat N) /\
  number (replicate N xff) = start_of_size (Z.of_nat N + 1) - 1 /\
  put_bytes (number (replicate (S N) x00) - 1) (replicate (S N) x00 ++ [x00])
  = Some (replicate N xff).
Proof.
  assert (H0 : forall K : nat, number (replicate K x00) = start_of_size (Z.of_nat K)).
  { intros K. rewrite number_eq, length_replicate, mpz_import_zeros. lia. }
  assert (H1 : number (replicate N xff) = start_of_size (Z.of_nat N + 1) - 1).
  { rewrite number_eq, length_replicate, mpz_import_ones.
    rewrite start_of_size_succ by lia. lia. }
  split; [apply H0 | split; [exact H1 |]].
  rewrite H0, Nat2Z.inj_succ. unfold Z.succ. rewrite <- H1.
  rewrite put_bytes_fits.
  - rewrite file_of_number_number. reflexivity.
  - apply number_nonneg.
  - rewrite put_filesize_number, length_app, !length_replicate. lia.
Qed.

(** Decompressing once a file whose first byte is not 0xFF adds one to the
    first byte and leaves the other bytes. *)
Theorem next_file (b : byte) (rest contents : list byte) :
  b <> xff ->
  (length (b :: rest) <= length contents)%nat ->
  put_bytes (number (b :: rest) + 1) contents
  = Some (byte_of_Z (byte_to_Z b + 1) :: rest).
Proof.
  intros Hb Hroom.
  pose proof (byte_to_Z_range b) as Hr.
  assert (Hne : byte_to_Z b <> 255).
  { intros E. apply Hb. apply byte_to_Z_inj. exact E. }
  assert (Hn : number (byte_of_Z (byte_to_Z b + 1) :: rest) = number (b :: rest) + 1).
  { rewrite !number_eq. cbn [length Gmp.mpz_import].
    rewrite byte_to_of_Z, Z.mod_small by lia. lia. }
  rewrite <- Hn, put_bytes_fits.
  - rewrite file_of_number_number. reflexivity.
  - apply number_nonneg.
  - rewrite put_filesize_number. cbn [length] in *. lia.
Qed.

Lemma next_file_witness :
  put_bytes (number [x61; x62] + 1) [x00; x00; x00] = Some [x62; x62].
Proof.
  apply (next_file x61 [x62] [x00; x00; x00]); [discriminate | simpl; lia].
Defined.

(** ** The block of [put] *)

(** [put] stores past the end of the block exactly when the block is
    shorter than the file of the number. *)
Theorem put_bytes_overrun_iff (n : Z) (contents : list byte) :
  0 <= n ->
  put_bytes n contents = None <-> Z.of_nat (length contents) < put_filesize n.
Proof.
  intros Hn. split.
  - intros H.
    destruct (Z.le_gt_cases (put_filesize n) (Z.of_nat (length contents)))
      as [Hle | Hgt]; [| lia].
    rewrite put_bytes_fits in H by assumption. discriminate.
  - apply put_bytes_overrun_lt.
Qed.

Lemma put_bytes_overrun_iff_witness :
  put_bytes 65536 [x00] = None <-> Z.of_nat (length [x00]) < put_filesize 65536.
Proof. apply (put_bytes_overrun_iff 65536 [x00]). lia. Defined.

(** What a block held before does not show in the file: with any two
    blocks that have room, [put] hands the same bytes to [fwrite], and as
    many as the size of the number says. *)
Theorem put_bytes_any_block (n : Z) (c1 c2 data : list byte) :
  0 <= n ->
  put_bytes n c1 = Some data ->
  put_filesize n <= Z.of_nat (length c2) ->
  put_bytes n c2 = Some data /\ Z.of_nat (length data) = put_filesize n.
Proof.
  intros Hn H1 H2.
  apply put_bytes_Some in H1 as [-> _]; [| assumption].
  split; [apply put_bytes_fits; assumption |].
  apply length_file_of_number. assumption.
Qed.

Lemma put_bytes_any_block_witness :
  put_bytes 258 [x00; x00] = Some [x01; x00] /\
  Z.of_nat (length [x01; x00]) = put_filesize 258.
Proof.
  apply (put_bytes_any_block 258 [x61; x62; x63] [x00; x00] [x01; x00]).
  - lia.
  - reflexivity.
  - vm_compute. discriminate.
Defined.

(** One step changes the size of the file by one byte at most: the file
    of n + 1 is as long as the file of n, or one byte longer. *)
Theorem put_filesize_step (n : Z) :
  0 <= n -> put_filesize n <= put_filesize (n + 1) <= put_filesize n + 1.
Proof.
  intros Hn. split; [apply put_filesize_mono; lia |].
  pose proof (put_filesize_nonneg n Hn) as HF.
  pose proof (put_filesize_bounds n Hn) as Hb.
  pose proof (put_filesize_bounds (n + 1) ltac:(lia)) as Hb1.
  pose proof (put_filesize_nonneg (n + 1) ltac:(lia)) as HF1.
  destruct (Z.le_gt_cases (put_filesize (n + 1)) (put_filesize n + 1))
    as [? | Hgt]; [assumption |].
  pose proof (start_of_size_mono (put_filesize n + 1 + 1) (put_filesize (n + 1))
                ltac:(lia) ltac:(lia)).
  pose proof (start_of_size_succ (put_filesize n + 1) ltac:(lia)).
  pose proof (pow_256_pos (put_filesize n + 1) ltac:(lia)).
  lia.
Qed.

Lemma put_filesize_step_witness :
  put_filesize 256 <= put_filesize (256 + 1) <= put_filesize 256 + 1.
Proof. apply (put_filesize_step 256). lia. Defined.

(** ** [get] and the C library *)

(** [get] returns a number exactly when the file exists, every call to
    the C library succeeds, [8 * filesize] fits a [long] and [fread] reads
    the whole file. *)
Theorem get_returns_iff (io : stdio) (filename : string) (w : world) :
  (exists (n : Z) (w' : world), get io filename w = (Ok n, w')) <->
  exists B : list byte,
    files w !! filename = Some B /\
    fopen_r io = true /\ fseek_end io = true /\ ftell_end io = true /\
    8 * Z.of_nat (length B) <= LONG_MAX /\
    calloc_block io = true /\
    items (fread_stop io) (length B) = length B.
Proof.
  unfold get, mbind, run_bind, fopen_read, size, FAILFILE, fail, undefined,
    mret, run_ret, calloc_fread.
  destruct (files w !! filename) as [B |] eqn:EB.
  2:{ split; [intros [n [w' H]]; discriminate H |].
      intros [B [H _]]; discriminate H. }
  assert (Hlong : 8 * Z.of_nat (length B) <= LONG_MAX ->
                  Z.of_nat (length B) <= LONG_MAX) by lia.
  destruct (fopen_r io);
    [| split; [intros [n [w' H]]; discriminate H
              | intros [B' [_ [H _]]]; discriminate H]].
  destruct (fseek_end io);
    [| split; [intros [n [w' H]]; discriminate H
              | intros [B' [_ [_ [H _]]]]; discriminate H]].
  destruct (ftell_end io); cbn [andb].
  2:{ split; [intros [n [w' H]]; discriminate H
             | intros [B' [_ [_ [_ [H _]]]]]; discriminate H]. }
  destruct (Z.leb_spec (Z.of_nat (length B)) LONG_MAX) as [Hle | Hgt].
  2:{ split; [intros [n [w' H]]; discriminate H |].
      intros [B' [HB' [_ [_ [_ [H _]]]]]]. injection HB' as <-. lia. }
  destruct (Z.eqb_spec (Z.of_nat (length B)) (-1)) as [E | _]; [lia |].
  destruct (Z.ltb_spec LONG_MAX (8 * Z.of_nat (length B))) as [Hov | Hfit].
  { split; [intros [n [w' H]]; discriminate H |].
    intros [B' [HB' [_ [_ [_ [H _]]]]]]. injection HB' as <-. lia. }
  destruct (calloc_block io).
  2:{ split; [intros [n [w' H]]; discriminate H
             | intros [B' [_ [_ [_ [_ [_ [H _]]]]]]]; discriminate H]. }
  rewrite Nat2Z.id.
  set (count := items (fread_stop io) (length B)).
  assert (Hcount : (count <= length B)%nat).
  { unfold count, items. destruct (fread_stop io); lia. }
  unfold calloc.
  replace (Z.to_nat (Z.of_nat (length B) + 1)) with (length B + 1)%nat by lia.
  rewrite store_fits by (rewrite length_take, length_replicate; lia).
  destruct (Z.eqb_spec (Z.of_nat count) (Z.of_nat (length B))) as [E | NE]; cbn [negb].
  - split; [| intros _; eexists; eexists; reflexivity].
    intros _. exists B. repeat split; try reflexivity; lia.
  - split; [intros [n [w' H]]; discriminate H |].
    intros [B' [HB' [_ [_ [_ [_ [_ H]]]]]]]. injection HB' as <-. lia.
Qed.


(** A file that does not exist, or a read that stops short, makes [get]
    fail with the message that the file cannot be accessed. *)
Theorem get_fails (io : stdio) (filename : string) (w : world)
    (B : list byte) (k : nat) :
  (files w !! filename = None ->
   get io filename w = (Failed "Unable to access file.\n" [], w)) /\
  (files w !! filename = Some B ->
   fopen_r io = true -> fseek_end io = true -> ftell_end io = true ->
   calloc_block io = true ->
   8 * Z.of_nat (length B) <= LONG_MAX ->
   fread_stop io = Some k -> (k < length B)%nat ->
   fst (get io filename w) = Failed "Unable to access file.\n" []).
Proof.
  unfold get, mbind, run_bind, fopen_read, size, FAILFILE, fail, undefined,
    mret, run_ret, calloc_fread.
  split.
  - intros ->. reflexivity.
  - intros -> -> -> -> -> Hlong -> Hk. cbn [andb items].
    destruct (Z.leb_spec (Z.of_nat (length B)) LONG_MAX) as [_ | ?]; [| lia].
    destruct (Z.eqb_spec (Z.of_nat (length B)) (-1)) as [? | _]; [lia |].
    destruct (Z.ltb_spec LONG_MAX (8 * Z.of_nat (length B))) as [? | _]; [lia |].
    rewrite Nat2Z.id.
    replace (Nat.min k (length B)) with k by lia.
    unfold calloc.
    rewrite store_fits by (rewrite length_take, length_replicate; lia).
    destruct (Z.eqb_spec (Z.of_nat k) (Z.of_nat (length B))) as [? | _]; [lia |].
    reflexivity.
Qed.

Lemma get_fails_witness :
  get stdio_ok "g" (start {["f" := [x61]]})
  = (Failed "Unable to access file.\n" [], start {["f" := [x61]]}) /\
  fst (get (Stdio true true true true (Some 1%nat) true None None) "f"
         (start {["f" := [x61; x62]]}))
  = Failed "Unable to access file.\n" [].
Proof.
  split.
  - apply (get_fails stdio_ok "g" (start {["f" := [x61]]}) [] 0). reflexivity.
  - apply (get_fails (Stdio true true true true (Some 1%nat) true None None) "f"
             (start {["f" := [x61; x62]]}) [x61; x62] 1);
      try reflexivity; [vm_compute; discriminate | simpl; lia].
Defined.

(** ** The options *)

Section Options.

Ltac amount dv dz :=
  exists dv, dz; intros; rewrite ?orb_true_r, ?orb_false_r;
  do 3 f_equal; lia.

(** An option that [main] accepts may set [debug] and adds its own amount
    to [compress], whatever the state and the files are. *)
Lemma option_case_Ok (c : ascii) (optarg : string) (st st' : bool * Z)
    (w w' : world) :
  option_case c optarg st w = (Ok st', w') ->
  exists (dv : bool) (dz : Z),
    forall (d0 : bool) (z0 : Z) (w0 : world),
      option_case c optarg (d0, z0) w0 = (Ok (d0 || dv, z0 + dz), w0).
Proof.
  destruct st as [debug compress]. unfold option_case, fail, mret, run_ret.
  destruct (GmpStr.mpz_set_str0 optarg) as [arg |];
    destruct c as [[] [] [] [] [] [] [] []]; cbn; intros H;
    try discriminate H;
    first [ amount true 0 | amount false 1 | amount false (- 1)
          | amount false arg | amount false (- arg) ].
Qed.

Lemma getopt_loop_app (opts1 opts2 : list (ascii * string)) (st : bool * Z)
    (w : world) :
  getopt_loop (opts1 ++ opts2) st w
  = (st' ← getopt_loop opts1 st; getopt_loop opts2 st') w.
Proof.
  revert st. induction opts1 as [| [c optarg] opts1 IH]; intros st;
    cbn [app getopt_loop]; [reflexivity |].
  unfold mbind, run_bind in *.
  destruct (option_case c optarg st w) as [[st' | str l | |] w1] eqn:E;
    try reflexivity.
  apply option_case_world in E as ->. apply IH.
Qed.

Lemma getopt_loop_swap (x y : ascii * string) (opts : list (ascii * string))
    (st st1 : bool * Z) (w w1 : world) :
  getopt_loop (x :: y :: opts) st w = (Ok st1, w1) ->
  getopt_loop (y :: x :: opts) st w = (Ok st1, w1).
Proof.
  destruct x as [cx ax], y as [cy ay], st as [d z].
  cbn [getopt_loop]. unfold mbind, run_bind.
  destruct (option_case cx ax (d, z) w) as [[stx | | |] wx] eqn:Ex;
    try discriminate.
  pose proof (option_case_world _ _ _ _ _ _ Ex) as ->.
  destruct (option_case_Ok _ _ _ _ _ _ Ex) as [dvx [dzx Hx]].
  rewrite Hx in Ex. injection Ex as <-.
  destruct (option_case cy ay (d || dvx, z + dzx) w) as [[sty | | |] wy] eqn:Ey;
    try discriminate.
  pose proof (option_case_world _ _ _ _ _ _ Ey) as ->.
  destruct (option_case_Ok _ _ _ _ _ _ Ey) as [dvy [dzy Hy]].
  rewrite Hy in Ey. injection Ey as <-.
  rewrite Hy, Hx.
  replace (d || dvy || dvx) with (d || dvx || dvy) by (destruct d, dvx, dvy; reflexivity).
  replace (z + dzy + dzx) with (z + dzx + dzy) by lia.
  trivial.
Qed.

End Options.

(** The options may come in any order: when [main] accepts them all, it
    accepts them in every other order as well, with the same shift and the
    same debug flag. *)
Theorem getopt_loop_any_order (opts opts' : list (ascii * string))
    (st st1 : bool * Z) (w w1 : world) :
  opts ≡ₚ opts' ->
  getopt_loop opts st w = (Ok st1, w1) ->
  getopt_loop opts' st w = (Ok st1, w1).
Proof.
  intros Hp. revert st.
  induction Hp as [| [c a] l l' Hp IH | x y l | l l' l'' Hp1 IH1 Hp2 IH2];
    intros st H.
  - exact H.
  - cbn [getopt_loop] in *. unfold mbind, run_bind in *.
    destruct (option_case c a st w) as [[st' | | |] w'] eqn:E;
      try discriminate H.
    pose proof (option_case_world _ _ _ _ _ _ E) as ->. apply IH. exact H.
  - apply getopt_loop_swap. exact H.
  - apply IH2, IH1. exact H.
Qed.

Lemma getopt_loop_any_order_witness :
  getopt_loop [("c"%char, ""); ("D"%char, "0x10"); ("v"%char, "")]
    (false, 0) (start ∅)
  = (Ok (true, -15), start ∅).
Proof.
  apply (getopt_loop_any_order
           [("v"%char, ""); ("D"%char, "0x10"); ("c"%char, "")]
           [("c"%char, ""); ("D"%char, "0x10"); ("v"%char, "")]).
  - apply Permutation_rev.
  - reflexivity.
Defined.

(** -C with the operand k does what k times -c does, and -D with the
    operand k what k times -d does. *)
Theorem option_C_repeats_c (optarg a : string) (k : nat) (st : bool * Z)
    (w : world) :
  GmpStr.mpz_set_str0 optarg = Some (Z.of_nat k) ->
  getopt_loop [("C"%char, optarg)] st w
  = getopt_loop (replicate k ("c"%char, a)) st w /\
  getopt_loop [("D"%char, optarg)] st w
  = getopt_loop (replicate k ("d"%char, a)) st w.
Proof.
  intros Hk. destruct st as [d z].
  assert (Hc : forall (j : nat) (z0 : Z),
             getopt_loop (replicate j ("c"%char, a)) (d, z0) w
             = (Ok (d, z0 + Z.of_nat j), w)).
  { induction j as [| j IH]; intros z0; cbn [replicate getopt_loop].
    - unfold mret, run_ret. do 3 f_equal. lia.
    - unfold mbind, run_bind. cbn [option_case]. unfold mret at 1, run_ret at 1.
      rewrite IH. do 3 f_equal. lia. }
  assert (Hd : forall (j : nat) (z0 : Z),
             getopt_loop (replicate j ("d"%char, a)) (d, z0) w
             = (Ok (d, z0 - Z.of_nat j), w)).
  { induction j as [| j IH]; intros z0; cbn [replicate getopt_loop].
    - unfold mret, run_ret. do 3 f_equal. lia.
    - unfold mbind, run_bind. cbn [option_case]. unfold mret at 1, run_ret at 1.
      rewrite IH. do 3 f_equal. lia. }
  rewrite Hc, Hd. cbn [getopt_loop]. unfold mbind, run_bind, option_case.
  cbn. rewrite Hk. split; reflexivity.
Qed.

Lemma option_C_repeats_c_witness :
  getopt_loop [("C"%char, "03")] (false, 0) (start ∅)
  = getopt_loop (replicate 3 ("c"%char, "")) (false, 0) (start ∅) /\
  getopt_loop [("D"%char, "03")] (false, 0) (start ∅)
  = getopt_loop (replicate 3 ("d"%char, "")) (false, 0) (start ∅).
Proof. apply (option_C_repeats_c "03" "" 3 (false, 0) (start ∅)). reflexivity. Defined.

(** ** Runs of [main] *)

(** -h after options that [main] accepts ends the run with status 0 and
    with the files as they were, whatever follows it on the command line
    and whatever the C library would answer. *)
Theorem help_exits (io : stdio) (opts rest : list (ascii * string))
    (optarg : string) (args : list string) (fs : gmap string (list byte))
    (st : bool * Z) :
  getopt_loop opts (false, 0) (start fs) = (Ok st, start fs) ->
  main io (opts ++ ("h"%char, optarg) :: rest) args (start fs)
  = (Exited, start fs).
Proof.
  intros H. unfold main. unfold mbind at 1, run_bind at 1.
  rewrite getopt_loop_app. unfold mbind at 1, run_bind at 1. rewrite H.
  destruct st as [d z]. reflexivity.
Qed.

Lemma help_exits_witness :
  main (Stdio false false false false None false None None)
    ([("c"%char, "")] ++ ("h"%char, "") :: [("C"%char, "ten")]) []
    (start {["f" := [x61]]})
  = (Exited, start {["f" := [x61]]}).
Proof.
  apply (help_exits (Stdio false false false false None false None None)
           [("c"%char, "")] [("C"%char, "ten")] "" [] {["f" := [x61]]} (false, 1)).
  reflexivity.
Defined.

(** Once the options are accepted, a command line without a file name
    and one with two or more arguments fail with their messages; no file
    is opened. *)
Theorem usage_errors (io : stdio) (opts : list (ascii * string))
    (fs : gmap string (list byte)) (st : bool * Z) :
  getopt_loop opts (false, 0) (start fs) = (Ok st, start fs) ->
  main io opts [] (start fs)
  = (Failed "No filename specified.\n" [], start fs) /\
  forall (a b : string) (args : list string),
    main io opts (a :: b :: args) (start fs)
    = (Failed "Too many arguments.\n" [], start fs).
Proof.
  intros H. unfold main, mbind, run_bind. rewrite H.
  destruct st as [d z]. split; [reflexivity | intros; reflexivity].
Qed.

Lemma usage_errors_witness :
  main stdio_ok [("c"%char, "")] [] (start {["f" := [x61]]})
  = (Failed "No filename specified.\n" [], start {["f" := [x61]]}) /\
  forall (a b : string) (args : list string),
    main stdio_ok [("c"%char, "")] (a :: b :: args) (start {["f" := [x61]]})
    = (Failed "Too many arguments.\n" [], start {["f" := [x61]]}).
Proof.
  apply (usage_errors stdio_ok [("c"%char, "")] {["f" := [x61]]} (false, 1)).
  reflexivity.
Defined.

(** An option that [main] rejects ends the run with its message before
    the arguments are looked at and before any file is opened. *)
Theorem option_error_first (io : stdio) (opts : list (ascii * string))
    (args : list string) (fs : gmap string (list byte)) (str : string)
    (l : list Z) (w1 : world) :
  getopt_loop opts (false, 0) (start fs) = (Failed str l, w1) ->
  main io opts args (start fs) = (Failed str l, start fs).
Proof.
  intros H. pose proof (getopt_loop_world _ _ _ _ _ H) as ->.
  unfold main, mbind, run_bind. rewrite H. reflexivity.
Qed.

Lemma option_error_first_witness :
  main stdio_ok [("x"%char, "")] [] (start ∅)
  = (Failed "Error parsing arguments.\n" [], start ∅).
Proof.
  apply (option_error_first stdio_ok [("x"%char, "")] [] ∅
           "Error parsing arguments.\n" [] (start ∅)).
  reflexivity.
Defined.

(** A run does not create the file: when the file does not exist the run
    fails in [get] and leaves the files as they were. *)
Theorem missing_file (io : stdio) (opts : list (ascii * string))
    (filename : string) (fs : gmap string (list byte)) (st : bool * Z) :
  getopt_loop opts (false, 0) (start fs) = (Ok st, start fs) ->
  fs !! filename = None ->
  main io opts [filename] (start fs)
  = (Failed "Unable to access file.\n" [], start fs).
Proof.
  intros H Hf. unfold main, mbind, run_bind. rewrite H. destruct st as [d z].
  unfold mret at 1, run_ret at 1.
  unfold get, mbind, run_bind, fopen_read. cbn [files start]. rewrite Hf.
  reflexivity.
Qed.

Lemma missing_file_witness :
  main stdio_ok [("d"%char, "")] ["g"] (start {["f" := [x61]]})
  = (Failed "Unable to access file.\n" [], start {["f" := [x61]]}).
Proof.
  apply (missing_file stdio_ok [("d"%char, "")] "g" {["f" := [x61]]} (false, -1));
    reflexivity.
Defined.

(** A run whose behaviour C defines changes no file but the one it is
    given, a file name standing for one file and different names for
    different files. *)
Theorem other_files_kept (io : stdio) (opts : list (ascii * string))
    (args : list string) (fs : gmap string (list byte)) (g : string) :
  head args <> Some g ->
  fst (main io opts args (start fs)) <> Undefined ->
  files (snd (main io opts args (start fs))) !! g = fs !! g.
Proof.
  intros Hg. unfold main, mbind, run_bind.
  destruct (getopt_loop opts (false, 0) (start fs))
    as [[[debug compress] | str l | |] w1] eqn:Eopts;
    pose proof (getopt_loop_world _ _ _ _ _ Eopts) as ->; try reflexivity.
  destruct args as [| filename [| other args]]; unfold fail, mret, run_ret;
    try reflexivity.
  assert (Hne : filename <> g) by (intros ->; apply Hg; reflexivity).
  destruct (get io filename (start fs)) as [[n | str l | |] w1] eqn:Eget;
    apply get_files in Eget as [Hfiles HB]; cbn [files start snd] in *;
    try (rewrite Hfiles; reflexivity).
  destruct (HB n eq_refl) as [B [HfB [-> Hblock]]]. clear HB.
  destruct (compress_number (number B) compress w1) as [[n' | str l | |] w2] eqn:Ec;
    pose proof (compress_number_world _ _ _ _ _ Ec) as ->;
    cbn [snd]; try (rewrite Hfiles; reflexivity).
  apply compress_number_Ok in Ec as [-> Hle].
  pose proof (number_nonneg B) as Hn.
  destruct (put io (number B - compress) filename w1) as [r w2] eqn:Eput.
  apply put_files in Eput; [| lia].
  destruct Eput as [[_ [-> ->]] | [[_ [-> _]] | [_ [Hw2 [[_ ->] | [_ [_ ->]]]]]]];
    cbn [fst snd]; intros Hdef.
  - rewrite Hfiles. reflexivity.
  - contradiction Hdef. reflexivity.
  - rewrite Hw2, lookup_insert_ne, Hfiles by assumption. reflexivity.
  - rewrite Hw2, lookup_insert_ne, Hfiles by assumption. reflexivity.
Qed.

Lemma other_files_kept_witness :
  files (snd (main stdio_ok [("d"%char, "")] ["f"]
                (start {["f" := [xff]; "g" := [x61]]}))) !! "g"
  = ({["f" := [xff]; "g" := [x61]]} : gmap string (list byte)) !! "g".
Proof.
  apply (other_files_kept stdio_ok [("d"%char, "")] ["f"]
           {["f" := [xff]; "g" := [x61]]} "g").
  - simpl. discriminate.
  - vm_compute. discriminate.
Defined.

(** ** Runs of [main] that reach [put] *)

Section Reach.

Lemma file_of_number_0 : file_of_number 0 = [].
Proof. reflexivity. Qed.

(** The options of one -c and of one -d. *)
Lemma getopt_c (fs : gmap string (list byte)) :
  getopt_loop [("c"%char, "")] (false, 0) (start fs) = (Ok (false, 1), start fs).
Proof. reflexivity. Qed.

Lemma getopt_d (fs : gmap string (list byte)) :
  getopt_loop [("d"%char, "")] (false, 0) (start fs) = (Ok (false, -1), start fs).
Proof. reflexivity. Qed.

End Reach.

(** With options that add up to no shift, the run writes the file back
    as it was. *)
Theorem no_shift_same_file (opts : list (ascii * string)) (filename : string)
    (fs : gmap string (list byte)) (B : list byte) (debug : bool) :
  fs !! filename = Some B ->
  8 * (Z.of_nat (length B) + 1) <= LONG_MAX ->
  getopt_loop opts (false, 0) (start fs) = (Ok (debug, 0), start fs) ->
  exists block : list byte,
    main stdio_ok opts [filename] (start fs) = (Ok 0, World fs block).
Proof.
  intros HB Hlong Hopts.
  pose proof (number_nonneg B) as Hn.
  destruct (main_returns_step opts filename fs B debug 0 HB Hlong Hopts ltac:(lia))
    as [block H].
  exists block. rewrite H, Z.sub_0_r, file_of_number_number, insert_id by assumption.
  reflexivity.
Qed.

Lemma no_shift_same_file_witness :
  exists block : list byte,
    main stdio_ok [("c"%char, ""); ("d"%char, "")] ["f"]
      (start {["f" := [x61; x62]]})
    = (Ok 0, World {["f" := [x61; x62]]} block).
Proof.
  apply (no_shift_same_file [("c"%char, ""); ("d"%char, "")] "f"
           {["f" := [x61; x62]]} [x61; x62] false);
    [reflexivity | vm_compute; discriminate | reflexivity].
Defined.

(** The hint of the message of [main] holds: compressing a file as many
    times as its number says makes a zero-length file. *)
Theorem compress_to_zero_length (opts : list (ascii * string))
    (filename : string) (fs : gmap string (list byte)) (B : list byte)
    (debug : bool) :
  fs !! filename = Some B ->
  8 * (Z.of_nat (length B) + 1) <= LONG_MAX ->
  getopt_loop opts (false, 0) (start fs) = (Ok (debug, number B), start fs) ->
  exists block : list byte,
    main stdio_ok opts [filename] (start fs)
    = (Ok 0, World (<[filename := []]> fs) block).
Proof.
  intros HB Hlong Hopts.
  pose proof (number_nonneg B) as Hn.
  destruct (main_returns_step opts filename fs B debug (number B) HB Hlong Hopts
              ltac:(lia)) as [block H].
  exists block. rewrite H, Z.sub_diag, file_of_number_0. reflexivity.
Qed.

Lemma compress_to_zero_length_witness :
  exists block : list byte,
    main stdio_ok [("C"%char, "258")] ["f"] (start {["f" := [x01; x00]]})
    = (Ok 0, World (<["f" := []]> {["f" := [x01; x00]]}) block).
Proof.
  apply (compress_to_zero_length [("C"%char, "258")] "f"
           {["f" := [x01; x00]]} [x01; x00] false);
    [reflexivity | vm_compute; discriminate | reflexivity].
Defined.

(** [main] refuses a shift larger than the number of the file: for the
    empty file with the message for a zero-length file, for any other
    file with the message that reports the number of the file.  The file is
    left as it was. *)
Theorem shift_refused (opts : list (ascii * string)) (filename : string)
    (fs : gmap string (list byte)) (B : list byte) (debug : bool)
    (compress : Z) :
  fs !! filename = Some B ->
  8 * Z.of_nat (length B) <= LONG_MAX ->
  getopt_loop opts (false, 0) (start fs) = (Ok (debug, compress), start fs) ->
  number B < compress ->
  main stdio_ok opts [filename] (start fs)
  = (match B with
     | [] => EmptyFileOverCompress
     | _ => InsufficientValue (number B)
     end, World fs (B ++ [x00])).
Proof.
  intros HB Hlong Hopts Hlt.
  unfold main, mbind, run_bind. rewrite Hopts.
  unfold mret at 1, run_ret at 1.
  rewrite (get_returns filename (start fs) B) by assumption.
  cbn [files start]. unfold compress_number, fail.
  destruct B as [| b B].
  - change (number []) with 0 in *.
    destruct (Z.ltb_spec 0 compress) as [_ | ?]; [reflexivity | lia].
  - assert (Hpos : 1 <= number (b :: B)).
    { pose proof (number_interval (b :: B)) as Hi. cbn [length] in Hi.
      rewrite Nat2Z.inj_succ in Hi.
      pose proof (start_of_size_succ (Z.of_nat (length B)) ltac:(lia)).
      pose proof (start_of_size_nonneg (Z.of_nat (length B)) ltac:(lia)).
      pose proof (pow_256_pos (Z.of_nat (length B)) ltac:(lia)).
      unfold Z.succ in Hi. lia. }
    destruct (Z.eqb_spec (number (b :: B)) 0) as [? | _]; [lia |].
    cbn [andb].
    destruct (Z.ltb_spec (number (b :: B)) compress) as [_ | ?]; [| lia].
    reflexivity.
Qed.

Lemma shift_refused_witness :
  main stdio_ok [("C"%char, "300")] ["f"] (start {["f" := [x01; x00]]})
  = (InsufficientValue (number [x01; x00]),
     World {["f" := [x01; x00]]} ([x01; x00] ++ [x00])).
Proof.
  apply (shift_refused [("C"%char, "300")] "f" {["f" := [x01; x00]]}
           [x01; x00] false 300);
    [reflexivity | vm_compute; discriminate | reflexivity | reflexivity].
Defined.

(** The block of [get] has one byte more than the file.  A shift that
    makes the file grow by two bytes or more lets [put] store past the end
    of the block: the run leaves the behaviour that C defines. *)
Theorem grow_two_bytes_undefined (opts : list (ascii * string))
    (filename : string) (fs : gmap string (list byte)) (B : list byte)
    (debug : bool) (compress : Z) :
  fs !! filename = Some B ->
  8 * Z.of_nat (length B) <= LONG_MAX ->
  getopt_loop opts (false, 0) (start fs) = (Ok (debug, compress), start fs) ->
  compress <= number B ->
  Z.of_nat (length B) + 1 < put_filesize (number B - compress) ->
  fst (main stdio_ok opts [filename] (start fs)) = Undefined.
Proof.
  intros HB Hlong Hopts Hle Hgrow.
  pose proof (number_nonneg B) as Hn.
  unfold main, mbind, run_bind. rewrite Hopts.
  unfold mret at 1, run_ret at 1.
  rewrite (get_returns filename (start fs) B) by assumption.
  unfold compress_number.
  destruct (Z.eqb_spec (number B) 0) as [E0 | _];
    destruct (Z.ltb_spec 0 compress) as [? | ?]; cbn [andb]; try lia;
    (destruct (Z.ltb_spec (number B) compress) as [? | _]; [lia |]);
    unfold mret at 1, run_ret at 1;
    unfold put, mbind, run_bind, fopen_write, undefined;
    cbn [stdio_ok fopen_w contents files start];
    (destruct (LONG_MAX <? 8 * put_filesize (number B - compress));
     [reflexivity |]);
    cbn [contents files];
    (rewrite put_bytes_overrun_lt; [reflexivity |]);
    rewrite length_app; change (length [x00]) with 1%nat; lia.
Qed.


Lemma grow_two_bytes_undefined_witness :
  fst (main stdio_ok [("D"%char, "65536")] ["f"] (start {["f" := []]}))
  = Undefined.
Proof.
  apply (grow_two_bytes_undefined [("D"%char, "65536")] "f" {["f" := []]}
           [] false (-65536));
    [reflexivity | vm_compute; discriminate | reflexivity
    | vm_compute; discriminate | reflexivity].
Defined.

(** ** One run after another *)

(** A run with -c puts the file with the number before in place of the
    file, and a run with -d on the result brings the file back. *)
Theorem compress_then_decompress (filename : string)
    (fs : gmap string (list byte)) (B : list byte) :
  fs !! filename = Some B ->
  B <> [] ->
  8 * (Z.of_nat (length B) + 1) <= LONG_MAX ->
  exists B1 block1 block2 : list byte,
    main stdio_ok [("c"%char, "")] [filename] (start fs)
    = (Ok 0, World (<[filename := B1]> fs) block1) /\
    number B1 = number B - 1 /\
    main stdio_ok [("d"%char, "")] [filename] (start (<[filename := B1]> fs))
    = (Ok 0, World fs block2).
Proof.
  intros HB Hne Hlong.
  assert (Hpos : 1 <= number B).
  { destruct B as [| b B]; [contradiction |].
    pose proof (number_interval (b :: B)) as Hi. cbn [length] in Hi.
    rewrite Nat2Z.inj_succ in Hi. unfold Z.succ in Hi.
    pose proof (start_of_size_succ (Z.of_nat (length B)) ltac:(lia)).
    pose proof (start_of_size_nonneg (Z.of_nat (length B)) ltac:(lia)).
    pose proof (pow_256_pos (Z.of_nat (length B)) ltac:(lia)). lia. }
  destruct (main_returns_step [("c"%char, "")] filename fs B false 1 HB Hlong
              (getopt_c fs) ltac:(lia)) as [block1 H1].
  set (B1 := file_of_number (number B - 1)) in *.
  assert (Hn1 : number B1 = number B - 1)
    by (apply number_file_of_number; lia).
  assert (Hlen1 : Z.of_nat (length B1) <= Z.of_nat (length B)).
  { unfold B1. rewrite length_file_of_number by lia.
    rewrite <- (put_filesize_number B). apply put_filesize_mono; lia. }
  destruct (main_returns_step [("d"%char, "")] filename (<[filename := B1]> fs)
              B1 false (-1) (lookup_insert_eq _ _ _) ltac:(lia)
              (getopt_d _) ltac:(lia)) as [block2 H2].
  exists B1, block1, block2. split; [exact H1 | split; [exact Hn1 |]].
  rewrite H2, Hn1. replace (number B - 1 - -1) with (number B) by lia.
  rewrite file_of_number_number, insert_insert_eq, insert_id by assumption.
  reflexivity.
Qed.

Lemma compress_then_decompress_witness :
  exists B1 block1 block2 : list byte,
    main stdio_ok [("c"%char, "")] ["f"] (start {["f" := [x00; x00]]})
    = (Ok 0, World (<["f" := B1]> {["f" := [x00; x00]]}) block1) /\
    number B1 = number [x00; x00] - 1 /\
    main stdio_ok [("d"%char, "")] ["f"]
      (start (<["f" := B1]> {["f" := [x00; x00]]}))
    = (Ok 0, World {["f" := [x00; x00]]} block2).
Proof.
  apply (compress_then_decompress "f" {["f" := [x00; x00]]} [x00; x00]);
    [reflexivity | discriminate | vm_compute; discriminate].
Defined.

(** A run with -d puts the file with the next number in place of the
    file, every file having a next one, and a run with -c on the result
    brings the file back. *)
Theorem decompress_then_compress (filename : string)
    (fs : gmap string (list byte)) (B : list byte) :
  fs !! filename = Some B ->
  8 * (Z.of_nat (length B) + 2) <= LONG_MAX ->
  exists B1 block1 block2 : list byte,
    main stdio_ok [("d"%char, "")] [filename] (start fs)
    = (Ok 0, World (<[filename := B1]> fs) block1) /\
    number B1 = number B + 1 /\
    main stdio_ok [("c"%char, "")] [filename] (start (<[filename := B1]> fs))
    = (Ok 0, World fs block2).
Proof.
  intros HB Hlong.
  pose proof (number_nonneg B) as Hn.
  destruct (main_returns_step [("d"%char, "")] filename fs B false (-1) HB
              ltac:(lia) (getopt_d fs) ltac:(lia)) as [block1 H1].
  replace (number B - -1) with (number B + 1) in H1 by lia.
  set (B1 := file_of_number (number B + 1)) in *.
  assert (Hn1 : number B1 = number B + 1)
    by (apply number_file_of_number; lia).
  assert (Hlen1 : Z.of_nat (length B1) <= Z.of_nat (length B) + 1).
  { unfold B1. rewrite length_file_of_number by lia.
    replace (number B + 1) with (number B - -1) by lia.
    apply one_more_byte. lia. }
  destruct (main_returns_step [("c"%char, "")] filename (<[filename := B1]> fs)
              B1 false 1 (lookup_insert_eq _ _ _) ltac:(lia)
              (getopt_c _) ltac:(lia)) as [block2 H2].
  exists B1, block1, block2. split; [exact H1 | split; [exact Hn1 |]].
  rewrite H2, Hn1. replace (number B + 1 - 1) with (number B) by lia.
  rewrite file_of_number_number, insert_insert_eq, insert_id by assumption.
  reflexivity.
Qed.

Lemma decompress_then_compress_witness :
  exists B1 block1 block2 : list byte,
    main stdio_ok [("d"%char, "")] ["f"] (start {["f" := [xff]]})
    = (Ok 0, World (<["f" := B1]> {["f" := [xff]]}) block1) /\
    number B1 = number [xff] + 1 /\
    main stdio_ok [("c"%char, "")] ["f"] (start (<["f" := B1]> {["f" := [xff]]}))
    = (Ok 0, World {["f" := [xff]]} block2).
Proof.
  apply (decompress_then_compress "f" {["f" := [xff]]} [xff]);
    [reflexivity | vm_compute; discriminate].
Defined.
